(** * tessworkshop_tutorials: the notebooks' own logic, embedded and verified

    The two notebooks contain four pieces of logic of their own:
    - [x_fold]           (exoplanet/02_transit.ipynb): phase folding of a light curve;
    - [find_index]       (tesscut_exomast exercises): nearest-time index lookup;
    - [json_to_table]    (tesscut_exomast exercises): JSON records to a typed table;
    - [make_animation]   (tesscut_exomast exercises): frame range and colour bounds.

    Python is dynamically typed, so the numeric code is embedded once, over a
    class [Number] of Python/numpy scalars, and run at two instances:
    IEEE binary64 (what numpy computes with) and exact rationals extended
    with a not-a-number value (arithmetic without rounding). *)

From Stdlib Require Import ZArith QArith Qround Qabs Ascii Floats Lia Lqa Bool.
From stdpp Require Import base option list strings pretty gmap.

Set Warnings "-inexact-float".

(** ** Results of code that can raise *)

Inductive exn : Type :=
  | AttributeError   (* [None.group(1)] *)
  | ValueError       (* reduction or argmin of an empty array, bad literal *)
  | IndexError       (* index outside the array *)
  | TypeError        (* a value or a dtype numpy does not accept *)
  | OverflowError.   (* an integer too large for a float *)

Inductive result (A : Type) : Type :=
  | Ok (a : A)
  | Raise (e : exn).
Arguments Ok {A} a.
Arguments Raise {A} e.

#[export] Instance result_ret : MRet result := fun A a => Ok a.
#[export] Instance result_bind : MBind result := fun A B k r =>
  match r with
  | Ok a => k a
  | Raise e => Raise e
  end.

(** ** IEEE binary64 remainder

    The kernel's primitive floats give [+], [-], [*], [abs] and the comparisons of
    binary64.  The C function [fmod] is exact (its result is always
    representable), so it is computed on the decoded mantissas and exponents. *)

Module Binary64.

(** [fmod x y]: the value [x - n*y] with [n] the quotient truncated towards
    zero, carrying the sign of [x]. *)
Definition fmod (x y : float) : float :=
  match Prim2SF x, Prim2SF y with
  | S754_nan, _ | _, S754_nan => nan
  | S754_infinity _, _ => nan
  | _, S754_zero _ => nan
  | S754_zero _, _ => x
  | S754_finite _ _ _, S754_infinity _ => x
  | S754_finite sx mx ex, S754_finite _ my ey =>
      let e := Z.min ex ey in
      let r := ((Z.pos mx * 2 ^ (ex - e)) mod (Z.pos my * 2 ^ (ey - e)))%Z in
      match r with
      | Z.pos p => SF2Prim (S754_finite sx p e)
      | _ => if sx then neg_zero else PrimFloat.zero
      end
  end.

Definition copysign_zero (b : float) : float :=
  if get_sign b then neg_zero else PrimFloat.zero.

(** numpy's [npy_remainder] / CPython's [float_rem]: the [fmod] result is
    moved into the divisor's sign by one rounded addition. *)
Definition remainder (a b : float) : float :=
  let m := fmod a b in
  if PrimFloat.eqb b PrimFloat.zero then m
  else if negb (PrimFloat.eqb m PrimFloat.zero)
       then if xorb (PrimFloat.ltb b PrimFloat.zero) (PrimFloat.ltb m PrimFloat.zero)
            then PrimFloat.add m b
            else m
       else copysign_zero b.

(** A Python [int] converted to binary64, rounded to nearest even. *)
Definition of_int (k : Z) : float :=
  SF2Prim (binary_normalize prec emax k 0 false).

(** The order of binary64 values that are not NaN, read off the decoded
    value: class and sign first, then exponent, then mantissa (decoded
    mantissas are normalised, so a larger exponent is a larger magnitude);
    both zeros share a key. *)
Definition sf_key (f : spec_float) : option (Z * Z * Z) :=
  match f with
  | S754_nan => None
  | S754_infinity true => Some (-2, 0, 0)%Z
  | S754_finite true m e => Some (-1, - e, Z.neg m)%Z
  | S754_zero _ => Some (0, 0, 0)%Z
  | S754_finite false m e => Some (1, e, Z.pos m)%Z
  | S754_infinity false => Some (2, 0, 0)%Z
  end.

Definition key_le (a b : Z * Z * Z) : Prop :=
  let '(a1, a2, a3) := a in
  let '(b1, b2, b3) := b in
  (a1 < b1 \/ (a1 = b1 /\ (a2 < b2 \/ (a2 = b2 /\ a3 <= b3))))%Z.

Definition key_lt (a b : Z * Z * Z) : Prop :=
  let '(a1, a2, a3) := a in
  let '(b1, b2, b3) := b in
  (a1 < b1 \/ (a1 = b1 /\ (a2 < b2 \/ (a2 = b2 /\ a3 < b3))))%Z.

End Binary64.

(** ** Exact arithmetic: rationals, and [Nan] where numpy has no number to
    give (a remainder by zero) *)

Inductive exact : Type :=
  | Fin (q : Q)
  | Nan.

Module Exact.

Definition lift2 (f : Q -> Q -> Q) (a b : exact) : exact :=
  match a, b with
  | Fin x, Fin y => Fin (f x y)
  | _, _ => Nan
  end.

Definition test2 (f : Q -> Q -> bool) (a b : exact) : bool :=
  match a, b with
  | Fin x, Fin y => f x y
  | _, _ => false
  end.

(** Floored remainder: the result has the divisor's sign. *)
Definition Qpymod (x y : Q) : Q := x - y * inject_Z (Qfloor (x / y)).

Definition remainder (a b : exact) : exact :=
  match a, b with
  | Fin x, Fin y => if Qeq_bool y 0 then Nan else Fin (Qpymod x y)
  | _, _ => Nan
  end.

Definition neg (a : exact) : exact :=
  match a with
  | Fin x => Fin (- x)
  | Nan => Nan
  end.

Definition abs (a : exact) : exact :=
  match a with
  | Fin x => Fin (Qabs x)
  | Nan => Nan
  end.

Definition Qlt_bool (x y : Q) : bool := negb (Qle_bool y x).

End Exact.

(** ** Python/numpy scalars *)

Class Number (T : Type) : Type := {
  nadd : T -> T -> T;
  nsub : T -> T -> T;
  nmul : T -> T -> T;
  nmod : T -> T -> T;          (* numpy [%] *)
  nneg : T -> T;
  nabs : T -> T;
  neqb : T -> T -> bool;       (* [==], false on NaN *)
  nleb : T -> T -> bool;       (* [<=], false on NaN *)
  nltb : T -> T -> bool;       (* [<],  false on NaN *)
  nzero : T;
  nhalf : T;                   (* the literal [0.5] *)
  of_int : Z -> T
}.

#[export] Instance float_Number : Number float := {
  nadd := PrimFloat.add;
  nsub := PrimFloat.sub;
  nmul := PrimFloat.mul;
  nmod := Binary64.remainder;
  nneg := PrimFloat.opp;
  nabs := PrimFloat.abs;
  neqb := PrimFloat.eqb;
  nleb := PrimFloat.leb;
  nltb := PrimFloat.ltb;
  nzero := 0%float;
  nhalf := 0.5%float;
  of_int := Binary64.of_int
}.

#[export] Instance exact_Number : Number exact := {
  nadd := Exact.lift2 Qplus;
  nsub := Exact.lift2 Qminus;
  nmul := Exact.lift2 Qmult;
  nmod := Exact.remainder;
  nneg := Exact.neg;
  nabs := Exact.abs;
  neqb := Exact.test2 Qeq_bool;
  nleb := Exact.test2 Qle_bool;
  nltb := Exact.test2 Exact.Qlt_bool;
  nzero := Fin 0;
  nhalf := Fin (1 # 2);
  of_int := fun k => Fin (inject_Z k)
}.

(** [x != x]: numpy's [npy_isnan]. *)
Definition isnan {T} `{Number T} (x : T) : bool := negb (neqb x x).

(** Python truthiness of a scalar: [bool(x)] is [x != 0]. *)
Definition truthy {T} `{Number T} (x : T) : bool := negb (neqb x nzero).

(** What the comparisons of a scalar type satisfy on its numbers (the values
    that are not NaN): [<=] is total and transitive, and [<] is its strict
    part.  Both instances satisfy it ([exact_ordered], [binary64_ordered]). *)
Record ordered_scalar (T : Type) `{Number T} : Prop := {
  nleb_total : forall x y : T,
    isnan x = false -> isnan y = false -> nleb x y = true \/ nleb y x = true;
  nleb_trans : forall x y z : T,
    nleb x y = true -> nleb y z = true -> nleb x z = true;
  nltb_nleb : forall x y : T,
    isnan x = false -> isnan y = false -> nltb x y = negb (nleb y x)
}.

(** ** Phase folding (02_transit.ipynb)

    [x_fold = (x - t0_guess + 0.5*period_guess) % period_guess - 0.5*period_guess]
    with [x = np.array(data["time"], dtype=np.float64)]: every operation is
    elementwise, on binary64 numbers. *)

Section Fold.
Context {T : Type} `{Number T}.

Definition fold1 (t0 period t : T) : T :=
  nsub (nmod (nadd (nsub t t0) (nmul nhalf period)) period) (nmul nhalf period).

Definition x_fold (x : list T) (t0 period : T) : list T :=
  map (fold1 t0 period) x.

End Fold.

(** The constants of the notebook: [period_guess = 6.26554],
    [t0_guess = -1.19041]. *)
Definition period_guess : float := 6.26554%float.
Definition t0_guess : float := (-1.19041)%float.

(** ** Nearest-time index lookup (TESScut_ExoMAST_exercises.ipynb) *)

Section FindIndex.
Context {T : Type} `{Number T}.

(** numpy's [argmin] over a float array, as its inner loop runs: [mp] is the
    running minimum found at index [mi]; an element replaces it when
    [!(x >= mp)], and a NaN ends the scan. *)
Fixpoint argmin_from (mp : T) (mi i : nat) (a : list T) : nat :=
  match a with
  | [] => mi
  | x :: a' =>
      if negb (nleb mp x)
      then if isnan x then i else argmin_from x i (S i) a'
      else argmin_from mp mi (S i) a'
  end.

Definition np_argmin (a : list T) : result nat :=
  match a with
  | [] => Raise ValueError
  | x :: a' => Ok (if isnan x then 0%nat else argmin_from x 0 1 a')
  end.

(** [return (np.abs(cutout_table['TIME'] - btjd)).argmin()]; the global
    [cutout_table['TIME']] is the first argument here. *)
Definition find_index (TIME : list T) (btjd : T) : result nat :=
  np_argmin (map (fun t => nabs (nsub t btjd)) TIME).

End FindIndex.

(** ** JSON records to a table (TESScut_ExoMAST_exercises.ipynb)

    Strings are sequences of ASCII characters. *)

Module Str.

Definition is_digit (c : ascii) : bool :=
  let n := nat_of_ascii c in (48 <=? n)%nat && (n <=? 57)%nat.

(** [str.isspace] on ASCII: tab, LF, VT, FF, CR, FS, GS, RS, US and space. *)
Definition is_space (c : ascii) : bool :=
  let n := nat_of_ascii c in
  ((9 <=? n)%nat && (n <=? 13)%nat) || ((28 <=? n)%nat && (n <=? 32)%nat).

Fixpoint lstrip (s : string) : string :=
  match s with
  | String c s' => if is_space c then lstrip s' else s
  | EmptyString => EmptyString
  end.

Fixpoint rstrip (s : string) : string :=
  match s with
  | EmptyString => EmptyString
  | String c s' =>
      match rstrip s' with
      | EmptyString => if is_space c then EmptyString else String c EmptyString
      | r => String c r
      end
  end.

Definition strip (s : string) : string := rstrip (lstrip s).

Fixpoint starts_with (p s : string) : bool :=
  match p, s with
  | EmptyString, _ => true
  | String a p', String b s' => Ascii.eqb a b && starts_with p' s'
  | String _ _, EmptyString => false
  end.

Fixpoint drop (n : nat) (s : string) : string :=
  match n, s with
  | S n', String _ s' => drop n' s'
  | _, _ => s
  end.

Fixpoint take (n : nat) (s : string) : string :=
  match n, s with
  | S n', String c s' => String c (take n' s')
  | _, _ => EmptyString
  end.

(** [needle in s] *)
Fixpoint contains (needle s : string) : bool :=
  starts_with needle s ||
  match s with
  | EmptyString => false
  | String _ s' => contains needle s'
  end.

(** The longest prefix of digits, and what follows it. *)
Fixpoint span_digits (s : string) : string * string :=
  match s with
  | String c s' =>
      if is_digit c
      then let '(d, r) := span_digits s' in (String c d, r)
      else (EmptyString, s)
  | EmptyString => (EmptyString, EmptyString)
  end.

Fixpoint all_digits (s : string) : bool :=
  match s with
  | EmptyString => true
  | String c s' => is_digit c && all_digits s'
  end.

(** The value of a string of decimal digits. *)
Fixpoint decimal_acc (acc : N) (s : string) : N :=
  match s with
  | EmptyString => acc
  | String c s' => decimal_acc (10 * acc + (N_of_ascii c - 48)) s'
  end.

Definition decimal (s : string) : N := decimal_acc 0 s.

End Str.

(** [rx = re.compile(r"varchar\((\d+)\)")].  [rx_match_here s] matches the
    pattern at the start of [s] and returns group 1; [\d+] is greedy, and
    giving back digits cannot help since [\)] must follow the run. *)
Definition rx_match_here (s : string) : option string :=
  if Str.starts_with "varchar(" s
  then let '(d, r) := Str.span_digits (Str.drop 8 s) in
       if negb (String.eqb d "") && Str.starts_with ")" r then Some d else None
  else None.

(** [rx.search(s)]: the leftmost match. *)
Fixpoint rx_search (s : string) : option string :=
  match rx_match_here s with
  | Some d => Some d
  | None =>
      match s with
      | EmptyString => None
      | String _ s' => rx_search s'
      end
  end.

(** The two [if]s that rewrite [atype] before it is passed as [dtype]. *)
Definition declared_dtype (atype : string) : result string :=
  atype ← (if Str.contains "varchar" atype
           then match rx_search atype with
                | Some g => Ok ("U" +:+ g)
                | None => Raise AttributeError
                end
           else Ok atype);
  Ok (if String.eqb atype "real" then "float" else atype).

(** JSON scalars as Python values. *)
Inductive pyval : Type :=
  | PyNone
  | PyBool (b : bool)
  | PyInt (z : Z)
  | PyFloat (f : float)
  | PyStr (s : string).

(** Elements of a numpy array: fixed-width text, binary64, or an element of a
    dtype this development does not interpret. *)
Inductive cell : Type :=
  | CStr (s : string)
  | CFloat (f : float)
  | COther (v : pyval).

Record column : Type := Column {
  col_dtype : string;
  col_cells : list cell
}.

Record field : Type := Field {
  colname : string;
  datatype : string
}.

Definition table : Type := list (string * column).

(** [col = col.strip()] *)
Definition field_col (f : field) : string := Str.strip (colname f).

(** [data_table[col] = value] on an astropy [Table]: a new name is appended, an
    existing name has its column replaced where it stands. *)
Fixpoint table_set (name : string) (c : column) (t : table) : table :=
  match t with
  | [] => [(name, c)]
  | (n, c') :: t' =>
      if String.eqb n name then (name, c) :: t' else (n, c') :: table_set name c t'
  end.

Fixpoint table_get (name : string) (t : table) : option column :=
  match t with
  | [] => None
  | (n, c) :: t' => if String.eqb n name then Some c else table_get name t'
  end.

Definition colnames (t : table) : list string := map fst t.

(** [np.array(values, dtype=...)], element by element, for the two dtypes the
    function itself produces: ['U<n>'] stores [str(v)] cut to [n] characters,
    ['float'] stores a binary64 number and turns [None] into NaN.  The rest
    of numpy is taken as given. *)
Section NpArray.
(** [str(f)] and [float(s)] of Python; which other dtype strings numpy
    understands, and how it stores a value under one of them. *)
Variable repr_float : float -> string.
Variable float_of_str : string -> option float.
Variable dtype_understood : string -> bool.
Variable cast_other : string -> pyval -> result cell.

(** [str(z)] of a Python [int]. *)
Definition str_int (z : Z) : string :=
  match z with
  | Z0 => "0"
  | Z.pos p => pretty (N.pos p)
  | Z.neg p => "-" +:+ pretty (N.pos p)
  end.

(** [str(v)] *)
Definition py_str (v : pyval) : string :=
  match v with
  | PyNone => "None"
  | PyBool true => "True"
  | PyBool false => "False"
  | PyInt z => str_int z
  | PyFloat f => repr_float f
  | PyStr s => s
  end.

(** An element stored in a ['U<n>'] array: its text, cut to [n] characters. *)
Definition to_unicode (n : N) (v : pyval) : cell :=
  CStr (Str.take (N.to_nat n) (py_str v)).

(** An element stored in a ['float'] array; [None] becomes NaN. *)
Definition to_float (v : pyval) : result cell :=
  match v with
  | PyNone => Ok (CFloat nan)
  | PyBool b => Ok (CFloat (if b then 1 else 0)%float)
  | PyInt z =>
      let f := Binary64.of_int z in
      if is_infinity f then Raise OverflowError else Ok (CFloat f)
  | PyFloat f => Ok (CFloat f)
  | PyStr s =>
      match float_of_str s with
      | Some f => Ok (CFloat f)
      | None => Raise ValueError
      end
  end.

(** ['U<n>'] with [n >= 1] a decimal number. *)
Definition unicode_width (dtype : string) : option N :=
  match dtype with
  | String "U" d =>
      if negb (String.eqb d "") && Str.all_digits d && (0 <? Str.decimal d)%N
      then Some (Str.decimal d)
      else None
  | _ => None
  end.

Fixpoint mapM {A B} (f : A -> result B) (l : list A) : result (list B) :=
  match l with
  | [] => Ok []
  | x :: l' => y ← f x; ys ← mapM f l'; Ok (y :: ys)
  end.

Definition np_array (values : list pyval) (dtype : string) : result column :=
  match unicode_width dtype with
  | Some n => Ok (Column dtype (map (to_unicode n) values))
  | None =>
      if String.eqb dtype "float"
      then cells ← mapM to_float values; Ok (Column dtype cells)
      else if dtype_understood dtype
           then cells ← mapM (cast_other dtype) values; Ok (Column dtype cells)
           else Raise TypeError
  end.

(** [x.get(col, None)] *)
Definition row_get (col : string) (x : gmap string pyval) : pyval :=
  default PyNone (x !! col).

(** The array assigned on one turn of the loop over [fields]:
    [np.array([x.get(col, None) for x in data], dtype=atype)]. *)
Definition field_column (data : list (gmap string pyval)) (f : field)
  : result column :=
  atype ← declared_dtype (datatype f);
  np_array (map (row_get (field_col f)) data) atype.

(** One turn of the loop: [data_table[col] = ...]. *)
Definition add_field (data : list (gmap string pyval)) (t : table) (f : field)
  : result table :=
  arr ← field_column data f;
  Ok (table_set (field_col f) arr t).

Fixpoint json_to_table_from (t : table) (fields : list field)
    (data : list (gmap string pyval)) : result table :=
  match fields with
  | [] => Ok t
  | f :: fields' => t' ← add_field data t f; json_to_table_from t' fields' data
  end.

Definition json_to_table (fields : list field) (data : list (gmap string pyval))
  : result table :=
  json_to_table_from [] fields data.

End NpArray.

(** ** Frame animation (TESScut_ExoMAST_exercises.ipynb) *)

(** [a[i]] with a Python integer: negative indices count from the end. *)
Definition py_index {A} (a : list A) (i : Z) : result A :=
  let n := Z.of_nat (length a) in
  let j := (if i <? 0 then i + n else i)%Z in
  if ((0 <=? j) && (j <? n))%Z
  then match a !! Z.to_nat j with
       | Some x => Ok x
       | None => Raise IndexError
       end
  else Raise IndexError.

(** [range(n)] *)
Definition py_range (n : Z) : list Z := map Z.of_nat (seq 0 (Z.to_nat n)).

Section Animation.
Context {T : Type} `{Number T}.

Definition frame : Type := list (list T).

(** All the elements of the cube, in storage order. *)
Definition pixels (data_array : list frame) : list T := concat (concat data_array).

(** numpy's [minimum] and [maximum]: a NaN on either side wins. *)
Definition np_minimum (a b : T) : T := if nleb a b || isnan a then a else b.
Definition np_maximum (a b : T) : T := if nleb b a || isnan a then a else b.

(** [np.min(a)] and [np.max(a)] over every element; an empty array has no
    minimum. *)
Definition np_min (a : list T) : result T :=
  match a with
  | [] => Raise ValueError
  | x :: a' => Ok (fold_left np_minimum a' x)
  end.

Definition np_max (a : list T) : result T :=
  match a with
  | [] => Raise ValueError
  | x :: a' => Ok (fold_left np_maximum a' x)
  end.

(** What [FuncAnimation] is built from: the cube, the offset [start] handed
    to [animate], the number of frames, the colour bounds closed over by
    [animate], and the delay. *)
Record animation : Type := Animation {
  ani_data : list frame;
  ani_start : Z;
  ani_frames : Z;
  ani_vmin : T;
  ani_vmax : T;
  ani_interval : Z
}.

(** [if not v: v = d] for an optional scalar: [None] and zero are falsy. *)
Definition unless_truthy (v : option T) (d : result T) : result T :=
  match v with
  | Some x => if truthy x then Ok x else d
  | None => d
  end.

(** [if not e: e = d] for an optional integer. *)
Definition unless_truthy_int (e : option Z) (d : Z) : Z :=
  match e with
  | Some z => if (z =? 0)%Z then d else z
  | None => d
  end.

Definition make_animation (data_array : list frame) (start_frame : Z)
    (end_frame : option Z) (vmin vmax : option T) (delay : Z) : result animation :=
  vmin ← unless_truthy vmin (np_min (pixels data_array));
  vmax ← unless_truthy vmax (np_max (pixels data_array));
  let end_frame := unless_truthy_int end_frame (Z.of_nat (length data_array) - 1) in
  let num_frames := (end_frame - start_frame + 1)%Z in
  (* the initial plot: [ax.imshow(data_array[start_frame], ...)] *)
  _ ← py_index data_array start_frame;
  Ok (Animation data_array start_frame num_frames vmin vmax delay).

(** The defaults of the signature:
    [start_frame=0, end_frame=None, vmin=None, vmax=None, delay=50]. *)
Definition make_animation_defaults (data_array : list frame) : result animation :=
  make_animation data_array 0 None None None 50.

(** One call of [animate(i, fig, ax, binarytab, start)]: the title's epoch
    number, the image shown and the bounds it is shown with. *)
Record rendered : Type := Rendered {
  r_epoch : Z;
  r_image : frame;
  r_vmin : T;
  r_vmax : T
}.

Definition animate (ani : animation) (i : Z) : result rendered :=
  im ← py_index (ani_data ani) (i + ani_start ani);
  Ok (Rendered (i + ani_start ani) im (ani_vmin ani) (ani_vmax ani)).

(** [frames=num_frames]: [animate] is called on [range(num_frames)]. *)
Definition rendered_frames (ani : animation) : list (result rendered) :=
  map (animate ani) (py_range (ani_frames ani)).

End Animation.

(** ** Vocabulary of the properties *)







(** [not v] is false: the optional argument was passed and is truthy. *)
Definition given {T} `{Number T} (v : option T) : bool :=
  match v with
  | Some x => truthy x
  | None => false
  end.


(** The example of the specification: fields
    [[{colname:"a",datatype:"varchar(3)"},{colname:"b",datatype:"real"}]] and
    data [[{"a":"xy","b":1.5},{"b":2.5}]]. *)
Definition example_fields : list field :=
  [Field "a" "varchar(3)"; Field "b" "real"].

Definition example_data : list (gmap string pyval) :=
  [ <["a" := PyStr "xy"]> {["b" := PyFloat 1.5%float]};
    {["b" := PyFloat 2.5%float]} ].

(** A cube of three 1x2 frames, in binary64 and in exact numbers. *)
Definition cube3 : list (list (list float)) :=
  [[[1; 2]]; [[0; 5]]; [[3; 4]]]%float.

Definition cube3_exact : list (list (list Q)) :=
  [[[1; 2]]; [[0; 5]]; [[3; 4]]]%Q.

(** Stand-ins for the parts of numpy and Python taken as given, for running
    [json_to_table] on inputs that never reach them. *)
Abbreviation json_to_table_run :=
  (json_to_table (fun _ => "") (fun _ => None) (fun _ => false)
                 (fun _ _ => Raise TypeError)).

(** * Properties *)

(** ** Phase folding *)

Section ExactFold.
Local Open Scope Q_scope.


Lemma Qfloor_unique (q : Q) (z : Z) :
  inject_Z z <= q -> q < inject_Z (z + 1) -> Qfloor q = z.
Proof.
  intros Hlo Hhi.
  pose proof (Qfloor_le q) as H1. pose proof (Qlt_floor q) as H2.
  assert (inject_Z (Qfloor q) < inject_Z (z + 1)) as A by lra.
  assert (inject_Z z < inject_Z (Qfloor q + 1)) as B by lra.
  rewrite <- Zlt_Qlt in A, B. lia.
Qed.

Lemma Qeq_bool_pos (y : Q) : 0 < y -> Qeq_bool y 0 = false.
Proof.
  intros Hy. destruct (Qeq_bool y 0) eqn:E; [|reflexivity].
  apply Qeq_bool_eq in E. lra.
Qed.

(** At the exact instance the folded time is the floored remainder moved
    down by half a period. *)
Lemma fold1_exact (t0 P t : Q) :
  0 < P ->
  fold1 (Fin t0) (Fin P) (Fin t)
  = Fin (Exact.Qpymod (t - t0 + (1 # 2) * P) P - (1 # 2) * P).
Proof.
  intros HP. unfold fold1. cbn. rewrite (Qeq_bool_pos P HP). reflexivity.
Qed.

End ExactFold.




(** C2 (as amended): in exact arithmetic the fold is periodic: for every
    period [P > 0], epoch [t0] and integer [k], the folded value of
    [t0 + k*P] equals that of [t0] (both are 0). *)
Theorem fold1_exact_periodic (t0 P : Q) (k : Z) :
  (0 < P)%Q ->
  exists r r' : Q,
    fold1 (Fin t0) (Fin P) (nadd (Fin t0) (nmul (of_int k) (Fin P))) = Fin r /\
    fold1 (Fin t0) (Fin P) (Fin t0) = Fin r' /\
    (r == r')%Q /\ (r' == 0)%Q.
Proof.
  intros HP.
  change (nadd (Fin t0) (nmul (of_int k) (Fin P)))
    with (Fin (t0 + inject_Z k * P)).
  rewrite !fold1_exact by assumption.
  eexists _, _. split; [reflexivity|]. split; [reflexivity|].
  unfold Exact.Qpymod.
  assert (Hk : Qfloor ((t0 + inject_Z k * P - t0 + (1 # 2) * P) / P) = k).
  { apply Qfloor_unique.
    - assert ((t0 + inject_Z k * P - t0 + (1 # 2) * P) / P == inject_Z k + (1 # 2))%Q
        as -> by (field; lra). lra.
    - rewrite inject_Z_plus. change (inject_Z 1) with 1%Q.
      assert ((t0 + inject_Z k * P - t0 + (1 # 2) * P) / P == inject_Z k + (1 # 2))%Q
        as -> by (field; lra). lra. }
  assert (H0 : Qfloor ((t0 - t0 + (1 # 2) * P) / P) = 0%Z).
  { apply Qfloor_unique.
    - assert ((t0 - t0 + (1 # 2) * P) / P == 1 # 2)%Q as -> by (field; lra).
      discriminate.
    - assert ((t0 - t0 + (1 # 2) * P) / P == 1 # 2)%Q as -> by (field; lra).
      reflexivity. }
  rewrite Hk, H0. change (inject_Z 0) with 0%Q. split; lra.
Qed.

Lemma fold1_exact_periodic_witness :
  (0 < 3)%Q /\
  exists r r' : Q,
    fold1 (Fin (1 # 4)) (Fin 3) (nadd (Fin (1 # 4)) (nmul (of_int (-2)) (Fin 3))) = Fin r /\
    fold1 (Fin (1 # 4)) (Fin 3) (Fin (1 # 4)) = Fin r' /\
    (r == r')%Q /\ (r' == 0)%Q.
Proof.
  split; [reflexivity|].
  apply (fold1_exact_periodic (1 # 4) 3 (-2)). reflexivity.
Defined.

(** C2 (as stated) fails in binary64, already for the notebook's own period
    and epoch with [k = 1]: [t0 + P] and then [(t0 + P) - t0] are rounded, and
    the fold of [t0 + P] is [-2^-50] while the fold of [t0] is [0]. *)
Lemma fold1_binary64_not_periodic :
  fold1 t0_guess period_guess (nadd t0_guess (nmul (of_int 1) period_guess))
    = (-0x1p-50)%float /\
  fold1 t0_guess period_guess t0_guess = 0%float /\
  neqb (fold1 t0_guess period_guess (nadd t0_guess (nmul (of_int 1) period_guess)))
       (fold1 t0_guess period_guess t0_guess) = false.
Proof. vm_compute. repeat split; reflexivity. Qed.

(** ** The order of the two scalar types *)

Section ExactOrder.
Local Open Scope Q_scope.

Lemma Qle_bool_false (x y : Q) : Qle_bool x y = false -> y < x.
Proof.
  intros E. apply Qnot_le_lt. intros Hle. apply Qle_bool_iff in Hle. congruence.
Qed.

Lemma exact_leb (a b : Q) : nleb (Fin a) (Fin b) = true <-> a <= b.
Proof. apply Qle_bool_iff. Qed.

Lemma exact_ltb (a b : Q) : nltb (Fin a) (Fin b) = true <-> a < b.
Proof.
  cbn. unfold Exact.Qlt_bool. rewrite negb_true_iff. split.
  - apply Qle_bool_false.
  - intros Hlt. destruct (Qle_bool b a) eqn:E; [|reflexivity].
    apply Qle_bool_iff in E. lra.
Qed.

Lemma exact_isnan_Fin (a : Q) : isnan (Fin a) = false.
Proof.
  unfold isnan. cbn. apply negb_false_iff, Qeq_bool_iff. reflexivity.
Qed.

Lemma exact_isnan (x : exact) : isnan x = false -> exists a, x = Fin a.
Proof. destruct x as [a|]; [eauto|discriminate]. Qed.

End ExactOrder.

Lemma exact_ordered : ordered_scalar exact.
Proof.
  split.
  - intros x y Hx Hy.
    apply exact_isnan in Hx as [a ->]. apply exact_isnan in Hy as [b ->].
    rewrite !exact_leb. destruct (Qlt_le_dec a b); [left|right]; lra.
  - intros [a|] [b|] [c|]; try discriminate.
    rewrite !exact_leb. lra.
  - intros x y Hx Hy.
    apply exact_isnan in Hx as [a ->]. apply exact_isnan in Hy as [b ->].
    reflexivity.
Qed.

Section Binary64Order.
Local Open Scope Z_scope.

Local Ltac key_cases :=
  first
    [ split; [discriminate|];
      intros (ka & kb & Ha & Hb & Hle); try discriminate;
      injection Ha as <-; injection Hb as <-; simpl in Hle; lia
    | split; [|reflexivity];
      intros _; eexists _, _; split; [reflexivity|]; split; [reflexivity|];
      simpl; lia ].

(** The specification's comparison of decoded values is the order of keys. *)
Lemma SFleb_key (a b : spec_float) :
  SFleb a b = true <->
  exists ka kb,
    Binary64.sf_key a = Some ka /\ Binary64.sf_key b = Some kb /\
    Binary64.key_le ka kb.
Proof.
  unfold SFleb.
  destruct a as [[]|[]| |[] ma ea], b as [[]|[]| |[] mb eb]; simpl;
    try key_cases;
    change (Pos.compare_cont Eq ma mb) with (Pos.compare ma mb);
    destruct (Z.compare_spec ea eb) as [He|He|He];
    try destruct (Pos.compare_spec ma mb) as [Hm|Hm|Hm]; simpl; key_cases.
Qed.

Lemma SFltb_key (a b : spec_float) :
  SFltb a b = true <->
  exists ka kb,
    Binary64.sf_key a = Some ka /\ Binary64.sf_key b = Some kb /\
    Binary64.key_lt ka kb.
Proof.
  unfold SFltb.
  destruct a as [[]|[]| |[] ma ea], b as [[]|[]| |[] mb eb]; simpl;
    try key_cases;
    change (Pos.compare_cont Eq ma mb) with (Pos.compare ma mb);
    destruct (Z.compare_spec ea eb) as [He|He|He];
    try destruct (Pos.compare_spec ma mb) as [Hm|Hm|Hm]; simpl; key_cases.
Qed.

Lemma SFeqb_refl_key (a : spec_float) :
  SFeqb a a = true <-> exists ka, Binary64.sf_key a = Some ka.
Proof.
  unfold SFeqb.
  destruct a as [[]|[]| |[] ma ea]; simpl;
    try (split; [eauto|reflexivity]);
    try (split; [discriminate|intros [ka Hk]; discriminate]).
  - rewrite Z.compare_refl.
    change (Pos.compare_cont Eq ma ma) with (Pos.compare ma ma).
    rewrite Pos.compare_refl. simpl. split; [eauto|reflexivity].
  - rewrite Z.compare_refl.
    change (Pos.compare_cont Eq ma ma) with (Pos.compare ma ma).
    rewrite Pos.compare_refl. simpl. split; [eauto|reflexivity].
Qed.

Lemma key_le_total (ka kb : Z * Z * Z) :
  Binary64.key_le ka kb \/ Binary64.key_le kb ka.
Proof. destruct ka as [[a1 a2] a3], kb as [[b1 b2] b3]. simpl. lia. Qed.

Lemma key_le_trans (ka kb kc : Z * Z * Z) :
  Binary64.key_le ka kb -> Binary64.key_le kb kc -> Binary64.key_le ka kc.
Proof.
  destruct ka as [[a1 a2] a3], kb as [[b1 b2] b3], kc as [[c1 c2] c3]. simpl. lia.
Qed.

Lemma key_lt_not_le (ka kb : Z * Z * Z) :
  Binary64.key_lt ka kb <-> ~ Binary64.key_le kb ka.
Proof. destruct ka as [[a1 a2] a3], kb as [[b1 b2] b3]. simpl. lia. Qed.

Lemma binary64_isnan_key (x : float) :
  isnan x = false -> exists k, Binary64.sf_key (Prim2SF x) = Some k.
Proof.
  unfold isnan. cbn. rewrite negb_false_iff, FloatAxioms.eqb_spec.
  apply SFeqb_refl_key.
Qed.

End Binary64Order.

(** The comparisons of binary64, as the kernel's primitive floats are
    specified, order the values that are not NaN. *)
Lemma binary64_ordered : ordered_scalar float.
Proof.
  split.
  - intros x y Hx Hy. cbn. rewrite !FloatAxioms.leb_spec, !SFleb_key.
    apply binary64_isnan_key in Hx as [ka Ha].
    apply binary64_isnan_key in Hy as [kb Hb].
    destruct (key_le_total ka kb); [left|right]; eauto 6.
  - intros x y z. cbn. rewrite !FloatAxioms.leb_spec, !SFleb_key.
    intros (ka & kb & Ha & Hb & Hab) (kb' & kc & Hb' & Hc & Hbc).
    assert (kb' = kb) as -> by congruence.
    exists ka, kc. split; [exact Ha|]. split; [exact Hc|].
    by apply (key_le_trans ka kb kc).
  - intros x y Hx Hy. cbn.
    apply binary64_isnan_key in Hx as [ka Ha].
    apply binary64_isnan_key in Hy as [kb Hb].
    destruct (PrimFloat.ltb x y) eqn:Elt, (PrimFloat.leb y x) eqn:Ele;
      try reflexivity; exfalso.
    + rewrite FloatAxioms.ltb_spec in Elt. rewrite FloatAxioms.leb_spec in Ele.
      apply SFltb_key in Elt as (ka' & kb' & Ha' & Hb' & Hlt).
      apply SFleb_key in Ele as (kb'' & ka'' & Hb'' & Ha'' & Hle).
      assert (ka' = ka) as -> by congruence. assert (kb' = kb) as -> by congruence.
      assert (ka'' = ka) as -> by congruence. assert (kb'' = kb) as -> by congruence.
      by apply key_lt_not_le in Hlt.
    + assert (Hlt : PrimFloat.ltb x y = true); [|congruence].
      rewrite FloatAxioms.ltb_spec. apply SFltb_key.
      exists ka, kb. split; [exact Ha|]. split; [exact Hb|].
      apply key_lt_not_le. intros Hle.
      assert (Hle' : PrimFloat.leb y x = true); [|congruence].
      rewrite FloatAxioms.leb_spec. apply SFleb_key. eauto 6.
Qed.

(** ** Nearest-time index lookup *)

Section ArgminBounds.
Context {T : Type} `{Number T}.

(** The scan returns the index it started with or one it has visited. *)
Lemma argmin_from_bound (a : list T) (mp : T) (mi i : nat) :
  (mi < i)%nat -> (argmin_from mp mi i a < i + length a)%nat.
Proof.
  revert mp mi i. induction a as [|x a IH]; intros mp mi i Hlt; simpl.
  - lia.
  - destruct (negb (nleb mp x)).
    + destruct (isnan x); [lia|].
      specialize (IH x i (S i)). lia.
    + specialize (IH mp mi (S i)). lia.
Qed.

Lemma np_argmin_bound (a : list T) (i : nat) :
  np_argmin a = Ok i -> (i < length a)%nat.
Proof.
  destruct a as [|x a]; simpl; [discriminate|].
  intros [= <-]. destruct (isnan x); [lia|].
  pose proof (argmin_from_bound a x 0 1). lia.
Qed.

End ArgminBounds.

(** C4: [find_index] raises exactly when the sequence of timestamps is empty;
    on every non-empty sequence, of any scalar type and whatever the values
    (NaN included), it returns an index of the sequence. *)
Theorem find_index_fails_iff_empty {T : Type} `{Number T} (TIME : list T) (btjd : T) :
  ((exists e, find_index TIME btjd = Raise e) <-> TIME = []) /\
  ((exists i, find_index TIME btjd = Ok i /\ (i < length TIME)%nat) <-> TIME <> []).
Proof.
  unfold find_index. destruct TIME as [|t TIME]; simpl.
  - split; split; try done.
    + intros _. by exists ValueError.
    + intros (i & Hi & _). discriminate.
  - split; split; try done.
    + intros (e & He). discriminate.
    + intros _. eexists. split; [reflexivity|].
      destruct (isnan _); [lia|].
      match goal with |- (argmin_from ?m 0 1 ?a < _)%nat =>
        pose proof (argmin_from_bound a m 0 1) as Hb; rewrite length_map in Hb end.
      lia.
Qed.

Section ArgminOrdered.
Context {T : Type} `{Number T} (HO : ordered_scalar T).

(** One comparison of the scan on two numbers: either the running minimum
    stays, or the new element is strictly smaller. *)
Lemma scan_step (m x : T) :
  isnan m = false -> isnan x = false ->
  (nleb m x = true) \/ (nleb m x = false /\ nltb x m = true /\ nleb x m = true).
Proof.
  intros Hm Hx. destruct (nleb m x) eqn:E; [by left|right].
  split; [reflexivity|]. split.
  - by rewrite (nltb_nleb T HO x m Hx Hm), E.
  - destruct (nleb_total T HO m x Hm Hx) as [Hc|Hc]; [congruence|exact Hc].
Qed.

Lemma nltb_below (x m y : T) :
  isnan x = false -> isnan y = false ->
  nltb x m = true -> isnan m = false -> nleb m y = true -> nltb x y = true.
Proof.
  intros Hx Hy Hlt Hm Hle.
  rewrite (nltb_nleb T HO x y Hx Hy). rewrite (nltb_nleb T HO x m Hx Hm) in Hlt.
  apply negb_true_iff in Hlt. apply negb_true_iff.
  destruct (nleb y x) eqn:E; [|reflexivity].
  by rewrite (nleb_trans T HO m y x Hle E) in Hlt.
Qed.

Lemma nltb_nleb_weaken (x y : T) :
  isnan x = false -> isnan y = false -> nltb x y = true -> nleb x y = true.
Proof.
  intros Hx Hy Hlt. rewrite (nltb_nleb T HO x y Hx Hy) in Hlt.
  apply negb_true_iff in Hlt.
  destruct (nleb_total T HO x y Hx Hy) as [Hc|Hc]; [exact Hc|congruence].
Qed.

(** On numbers the scan keeps the running minimum [m] (found at [mi]) when
    nothing in [a] is smaller, and otherwise stops at the first entry of [a]
    that attains the least value. *)
Lemma argmin_from_ordered (a : list T) (m : T) (mi i : nat) :
  isnan m = false -> Forall (fun x => isnan x = false) a ->
  (argmin_from m mi i a = mi /\ Forall (fun y => nleb m y = true) a) \/
  (exists k x,
      argmin_from m mi i a = (i + k)%nat /\
      a !! k = Some x /\ nltb x m = true /\
      Forall (fun y => nleb x y = true) a /\
      forall j y, (j < k)%nat -> a !! j = Some y -> nltb x y = true).
Proof.
  intros Hm Ha. revert m mi i Hm.
  induction Ha as [|d a Hd Ha IH]; intros m mi i Hm.
  - left. split; [reflexivity|constructor].
  - cbn [argmin_from]. rewrite Hd.
    destruct (scan_step m d Hm Hd) as [E|(E & Hlt & Hle)]; rewrite E; cbn [negb].
    + destruct (IH m mi (S i) Hm)
        as [[-> Hall]|(k & x & -> & Hk & Hx & Hall & Hfirst)].
      * left. split; [reflexivity|]. by constructor.
      * right. exists (S k), x.
        assert (Hxn : isnan x = false).
        { rewrite Forall_lookup in Ha. exact (Ha k x Hk). }
        repeat split.
        -- lia.
        -- exact Hk.
        -- exact Hx.
        -- constructor; [|exact Hall].
           apply nltb_nleb_weaken; try assumption.
           by apply (nltb_below x m d).
        -- intros [|j] y Hj Hy; simpl in Hy.
           ++ injection Hy as <-. by apply (nltb_below x m d).
           ++ apply (Hfirst j); [lia|exact Hy].
    + destruct (IH d i (S i) Hd)
        as [[-> Hall]|(k & x & -> & Hk & Hx & Hall & Hfirst)].
      * right. exists 0%nat, d. repeat split.
        -- lia.
        -- exact Hlt.
        -- constructor; [|exact Hall].
           destruct (nleb_total T HO d d Hd Hd); assumption.
        -- intros j y Hj. lia.
      * right. exists (S k), x.
        assert (Hxn : isnan x = false).
        { rewrite Forall_lookup in Ha. exact (Ha k x Hk). }
        repeat split.
        -- lia.
        -- exact Hk.
        -- by apply (nltb_below x d m).
        -- constructor; [|exact Hall]. by apply nltb_nleb_weaken.
        -- intros [|j] y Hj Hy; simpl in Hy.
           ++ injection Hy as <-. exact Hx.
           ++ apply (Hfirst j); [lia|exact Hy].
Qed.

(** [argmin] of a non-empty array of numbers: the first index that attains
    the least value. *)
Lemma np_argmin_ordered (a : list T) :
  a <> [] -> Forall (fun x => isnan x = false) a ->
  exists i x,
    np_argmin a = Ok i /\ a !! i = Some x /\
    forall j y, a !! j = Some y ->
      nleb x y = true /\ ((j < i)%nat -> nltb x y = true).
Proof.
  destruct a as [|d a]; [done|]. intros _ Hall.
  apply Forall_cons in Hall as [Hd Ha].
  cbn [np_argmin]. rewrite Hd.
  destruct (argmin_from_ordered a d 0 1 Hd Ha)
    as [[-> Hle]|(k & x & -> & Hk & Hx & Hle & Hfirst)].
  - exists 0%nat, d. split; [reflexivity|]. split; [reflexivity|].
    intros [|j] y Hy; simpl in Hy.
    + injection Hy as <-. split; [|lia].
      destruct (nleb_total T HO d d Hd Hd); assumption.
    + split; [|lia]. rewrite Forall_lookup in Hle. by apply (Hle j).
  - exists (S k), x. split; [reflexivity|]. split; [exact Hk|].
    assert (Hxn : isnan x = false).
    { rewrite Forall_lookup in Ha. exact (Ha k x Hk). }
    intros [|j] y Hy; simpl in Hy.
    + injection Hy as <-. split; [by apply nltb_nleb_weaken|]. intros _. exact Hx.
    + split.
      * rewrite Forall_lookup in Hle. by apply (Hle j).
      * intros Hj. apply (Hfirst j); [lia|exact Hy].
Qed.

(** [find_index] when no difference [|t - btjd|] is NaN. *)
Lemma find_index_ordered (TIME : list T) (btjd : T) :
  TIME <> [] ->
  Forall (fun t => isnan (nabs (nsub t btjd)) = false) TIME ->
  exists i ti,
    find_index TIME btjd = Ok i /\ TIME !! i = Some ti /\
    forall j tj, TIME !! j = Some tj ->
      nleb (nabs (nsub ti btjd)) (nabs (nsub tj btjd)) = true /\
      ((j < i)%nat -> nltb (nabs (nsub ti btjd)) (nabs (nsub tj btjd)) = true).
Proof.
  intros Hne Hnum. unfold find_index.
  destruct (np_argmin_ordered (map (fun t => nabs (nsub t btjd)) TIME))
    as (i & x & Hi & Hx & Hmin).
  { by destruct TIME. }
  { by apply Forall_fmap. }
  rewrite list_lookup_fmap in Hx.
  destruct (TIME !! i) as [ti|] eqn:Hti; [|discriminate].
  assert (x = nabs (nsub ti btjd)) as -> by (symmetry; exact (Some_inj _ _ Hx)).
  exists i, ti. split; [exact Hi|]. split; [exact Hti|].
  intros j tj Hj. apply (Hmin j). by rewrite list_lookup_fmap, Hj.
Qed.

End ArgminOrdered.


(** ** JSON records to a table *)



Lemma table_get_set_eq (n : string) (c : column) (t : table) :
  table_get n (table_set n c t) = Some c.
Proof.
  induction t as [|[n' c'] t IH]; simpl.
  - by rewrite String.eqb_refl.
  - destruct (String.eqb n' n) eqn:E; simpl.
    + by rewrite String.eqb_refl.
    + by rewrite E.
Qed.

Lemma table_get_set_ne (n n' : string) (c : column) (t : table) :
  n <> n' -> table_get n' (table_set n c t) = table_get n' t.
Proof.
  intros Hne. induction t as [|[m c'] t IH]; simpl.
  - destruct (String.eqb n n') eqn:E; [|reflexivity].
    apply String.eqb_eq in E. contradiction.
  - destruct (String.eqb m n) eqn:E; simpl.
    + apply String.eqb_eq in E. subst m.
      destruct (String.eqb n n') eqn:E'; [|reflexivity].
      apply String.eqb_eq in E'. contradiction.
    + by rewrite IH.
Qed.


(** The regular expression on a well-formed [varchar(N)]. *)
Lemma span_digits_closing (N r : string) :
  Str.all_digits N = true ->
  Str.span_digits (N +:+ String ")" r) = (N, String ")" r).
Proof.
  induction N as [|c N IH]; simpl; intros Hd; [reflexivity|].
  apply andb_true_iff in Hd as [-> Hd]. by rewrite IH.
Qed.







Section JsonToTable.
Variable repr_float : float -> string.
Variable float_of_str : string -> option float.
Variable dtype_understood : string -> bool.
Variable cast_other : string -> pyval -> result cell.

Local Abbreviation np_array' := (np_array repr_float float_of_str dtype_understood cast_other).
Local Abbreviation field_column' :=
  (field_column repr_float float_of_str dtype_understood cast_other).
Local Abbreviation add_field' :=
  (add_field repr_float float_of_str dtype_understood cast_other).
Local Abbreviation json_to_table_from' :=
  (json_to_table_from repr_float float_of_str dtype_understood cast_other).
Local Abbreviation json_to_table' :=
  (json_to_table repr_float float_of_str dtype_understood cast_other).
Local Abbreviation to_unicode' := (to_unicode repr_float).
Local Abbreviation to_float' := (to_float float_of_str).

Lemma bind_Ok {A B} (r : result A) (k : A -> result B) (b : B) :
  (r ≫= k) = Ok b -> exists a, r = Ok a /\ k a = Ok b.
Proof. destruct r as [a|e]; [eauto|discriminate]. Qed.

Lemma mapM_Ok {A B} (f : A -> result B) (l : list A) (ys : list B) :
  mapM f l = Ok ys -> Forall2 (fun x y => f x = Ok y) l ys.
Proof.
  revert ys. induction l as [|x l IH]; simpl; intros ys Hm.
  - injection Hm as <-. constructor.
  - apply bind_Ok in Hm as (y & Hy & Hm).
    apply bind_Ok in Hm as (ys' & Hys & Hm).
    injection Hm as <-. constructor; auto.
Qed.

(** The array built has the dtype asked for. *)
Lemma np_array_dtype (values : list pyval) (dtype : string) (c : column) :
  np_array' values dtype = Ok c -> col_dtype c = dtype.
Proof.
  unfold np_array. destruct (unicode_width dtype).
  - by intros [= <-].
  - destruct (String.eqb dtype "float").
    + intros Hb. apply bind_Ok in Hb as (cells & _ & [= <-]). reflexivity.
    + destruct (dtype_understood dtype); [|discriminate].
      intros Hb. apply bind_Ok in Hb as (cells & _ & [= <-]). reflexivity.
Qed.




Lemma add_field_Ok (data : list (gmap string pyval)) (t t' : table) (f : field) :
  add_field' data t f = Ok t' ->
  exists c, field_column' data f = Ok c /\ t' = table_set (field_col f) c t.
Proof.
  unfold add_field. intros Hb.
  apply bind_Ok in Hb as (c & Hc & [= <-]). eauto.
Qed.

Lemma field_column_Ok (data : list (gmap string pyval)) (f : field) (c : column) :
  field_column' data f = Ok c ->
  exists dtype, declared_dtype (datatype f) = Ok dtype /\ col_dtype c = dtype /\
                np_array' (map (row_get (field_col f)) data) dtype = Ok c.
Proof.
  unfold field_column. intros Hb.
  apply bind_Ok in Hb as (dtype & Hd & Hc).
  exists dtype. split; [exact Hd|]. split; [|exact Hc].
  by apply np_array_dtype in Hc.
Qed.





(** Every column of the table is [np.array] of the values looked up under
    its name, at the column's dtype. *)
Lemma json_to_table_from_columns (t t' : table) (fields : list field)
    (data : list (gmap string pyval)) :
  json_to_table_from' t fields data = Ok t' ->
  (forall name c, table_get name t = Some c ->
     np_array' (map (row_get name) data) (col_dtype c) = Ok c) ->
  forall name c, table_get name t' = Some c ->
    np_array' (map (row_get name) data) (col_dtype c) = Ok c.
Proof.
  revert t. induction fields as [|f fields IH]; simpl; intros t Hb Hinv.
  - by injection Hb as <-.
  - apply bind_Ok in Hb as (t0 & H0 & Hb).
    apply add_field_Ok in H0 as (c0 & Hc0 & ->).
    apply (IH _ Hb). intros name c Hget.
    destruct (decide (field_col f = name)) as [<-|Hne].
    + rewrite table_get_set_eq in Hget. injection Hget as <-.
      apply field_column_Ok in Hc0 as (dtype & _ & -> & Hc0). exact Hc0.
    + rewrite table_get_set_ne in Hget by exact Hne. by apply Hinv.
Qed.





Lemma np_array_length (values : list pyval) (dtype : string) (c : column) :
  np_array' values dtype = Ok c -> length (col_cells c) = length values.
Proof.
  unfold np_array. destruct (unicode_width dtype).
  - intros [= <-]. simpl. apply length_map.
  - destruct (String.eqb dtype "float").
    + intros Hb. apply bind_Ok in Hb as (cells & Hm & [= <-]). simpl.
      apply mapM_Ok, Forall2_length in Hm. by symmetry.
    + destruct (dtype_understood dtype); [|discriminate].
      intros Hb. apply bind_Ok in Hb as (cells & Hm & [= <-]). simpl.
      apply mapM_Ok, Forall2_length in Hm. by symmetry.
Qed.




End JsonToTable.






(** ** Frame animation *)

Lemma py_range_length (n : Z) : length (py_range n) = Z.to_nat n.
Proof. unfold py_range. by rewrite length_map, length_seq. Qed.

Lemma py_range_lookup (n : Z) (i : nat) :
  (i < Z.to_nat n)%nat -> py_range n !! i = Some (Z.of_nat i).
Proof.
  intros Hi. unfold py_range. rewrite list_lookup_fmap.
  rewrite lookup_seq_lt by exact Hi. reflexivity.
Qed.

Lemma py_index_nat {A} (a : list A) (i : nat) (x : A) :
  a !! i = Some x -> py_index a (Z.of_nat i) = Ok x.
Proof.
  intros Hx. pose proof (lookup_lt_Some _ _ _ Hx) as Hlt. unfold py_index.
  destruct (Z.of_nat i <? 0)%Z eqn:E; [apply Z.ltb_lt in E; lia|].
  assert (((0 <=? Z.of_nat i) && (Z.of_nat i <? Z.of_nat (length a)))%Z = true) as ->.
  { apply andb_true_intro. split; [apply Z.leb_le|apply Z.ltb_lt]; lia. }
  by rewrite Nat2Z.id, Hx.
Qed.

Section AnimationFacts.
Context {T : Type} `{Number T}.

Lemma rendered_frames_length (ani : animation (T:=T)) :
  length (rendered_frames ani) = Z.to_nat (ani_frames ani).
Proof. unfold rendered_frames. by rewrite length_map, py_range_length. Qed.

(** What a successful call has computed. *)
Lemma make_animation_Ok (data_array : list (frame (T:=T))) (start_frame : Z)
    (end_frame : option Z) (vmin vmax : option T) (delay : Z) (ani : animation) :
  make_animation data_array start_frame end_frame vmin vmax delay = Ok ani ->
  exists lo hi first,
    unless_truthy vmin (np_min (pixels data_array)) = Ok lo /\
    unless_truthy vmax (np_max (pixels data_array)) = Ok hi /\
    py_index data_array start_frame = Ok first /\
    ani = Animation data_array start_frame
            (unless_truthy_int end_frame (Z.of_nat (length data_array) - 1)
             - start_frame + 1)
            lo hi delay.
Proof.
  unfold make_animation. intros Hb.
  destruct (unless_truthy vmin _) as [lo|]; [|discriminate].
  destruct (unless_truthy vmax _) as [hi|]; [|discriminate].
  destruct (py_index data_array start_frame) as [first|]; [|discriminate].
  injection Hb as <-. by exists lo, hi, first.
Qed.

(** Every frame is drawn with the bounds the animation was built with. *)
Lemma rendered_bounds (ani : animation (T:=T)) (i : nat) (r : rendered) :
  rendered_frames ani !! i = Some (Ok r) ->
  r_vmin r = ani_vmin ani /\ r_vmax r = ani_vmax ani.
Proof.
  unfold rendered_frames. rewrite list_lookup_fmap.
  destruct (py_range (ani_frames ani) !! i) as [k|]; [|discriminate].
  simpl. unfold animate. intros Hr. apply Some_inj in Hr.
  destruct (py_index (ani_data ani) (k + ani_start ani)) as [im|]; [|discriminate].
  by injection Hr as <-.
Qed.

(** With absent bounds the animation carries [np.min] and [np.max] of the
    whole cube, whatever the scalar type. *)
Lemma make_animation_absent_bounds (data_array : list (frame (T:=T)))
    (start_frame : Z) (end_frame : option Z) (delay : Z) (ani : animation) :
  make_animation data_array start_frame end_frame None None delay = Ok ani ->
  np_min (pixels data_array) = Ok (ani_vmin ani) /\
  np_max (pixels data_array) = Ok (ani_vmax ani).
Proof.
  intros Hb. apply make_animation_Ok in Hb as (lo & hi & first & Hlo & Hhi & _ & ->).
  simpl in *. by split.
Qed.

(** With the default range the frames drawn are the frames of the cube, in
    order, each under its own index. *)
Lemma make_animation_defaults_frames (data_array : list (frame (T:=T)))
    (ani : animation) :
  make_animation_defaults data_array = Ok ani ->
  length (rendered_frames ani) = length data_array /\
  forall i im, data_array !! i = Some im ->
    rendered_frames ani !! i
    = Some (Ok (Rendered (Z.of_nat i) im (ani_vmin ani) (ani_vmax ani))).
Proof.
  unfold make_animation_defaults. intros Hb.
  apply make_animation_Ok in Hb as (lo & hi & first & _ & _ & _ & ->).
  rewrite rendered_frames_length. cbn -[Z.of_nat Z.to_nat Z.sub Z.add].
  assert (Hn : Z.to_nat (Z.of_nat (length data_array) - 1 - 0 + 1) = length data_array)
    by lia.
  split; [exact Hn|].
  intros i im Him. pose proof (lookup_lt_Some _ _ _ Him) as Hlt.
  unfold rendered_frames. cbn -[Z.of_nat Z.to_nat Z.sub Z.add].
  rewrite list_lookup_fmap, py_range_lookup by lia. simpl.
  unfold animate. cbn -[Z.of_nat Z.to_nat Z.sub Z.add].
  rewrite Z.add_0_r, (py_index_nat _ _ _ Him). reflexivity.
Qed.

(** With an explicit, non-zero end frame the count is
    [end_frame - start_frame + 1]. *)
Lemma make_animation_explicit_frames (data_array : list (frame (T:=T)))
    (start_frame e : Z) (vmin vmax : option T) (delay : Z) (ani : animation) :
  e <> 0%Z ->
  make_animation data_array start_frame (Some e) vmin vmax delay = Ok ani ->
  ani_frames ani = (e - start_frame + 1)%Z /\
  length (rendered_frames ani) = Z.to_nat (e - start_frame + 1).
Proof.
  intros He Hb. apply make_animation_Ok in Hb as (lo & hi & first & _ & _ & _ & ->).
  rewrite rendered_frames_length. simpl.
  destruct (e =? 0)%Z eqn:E; [apply Z.eqb_eq in E; contradiction|]. by split.
Qed.

End AnimationFacts.

(** C8 at the failing input: for a cube of three frames the defaults draw
    3 frames and [start_frame=1] draws 2, as the claim says; but the explicit
    range [start_frame=0, end_frame=0], one frame by
    [end_frame - start_frame + 1], draws all 3, because [not end_frame] holds
    for 0 and the end is reset to the last index. *)
Theorem make_animation_end_frame_zero :
  (ani ← make_animation_defaults cube3; Ok (length (rendered_frames ani)))
    = Ok 3%nat /\
  (ani ← make_animation cube3 1 None None None 50; Ok (length (rendered_frames ani)))
    = Ok 2%nat /\
  (ani ← make_animation cube3 0 (Some 0%Z) None None 50;
   Ok (ani_frames ani, length (rendered_frames ani)))
    = Ok (3%Z, 3%nat) /\
  (0 - 0 + 1 = 1)%Z.
Proof. vm_compute. repeat split; reflexivity. Qed.

Section MinMaxOrdered.
Context {T : Type} `{Number T} (HO : ordered_scalar T).

(** The running minimum over numbers is one of the values seen and is below
    all of them. *)
Lemma fold_minimum_ordered (l : list T) (a : T) :
  isnan a = false -> Forall (fun x => isnan x = false) l ->
  fold_left np_minimum l a ∈ a :: l /\
  forall p, p ∈ a :: l -> nleb (fold_left np_minimum l a) p = true.
Proof.
  intros Ha Hl. revert a Ha. induction Hl as [|x l Hx Hl IH]; intros a Ha; simpl.
  - split; [left|]. intros p Hp. apply list_elem_of_singleton in Hp as ->.
    destruct (nleb_total T HO a a Ha Ha); assumption.
  - unfold np_minimum at 2 4. rewrite Ha, orb_false_r.
    destruct (nleb a x) eqn:E.
    + destruct (IH a Ha) as [Hin Hle]. split.
      * apply elem_of_cons in Hin as [->|Hin]; [left|by do 2 right].
      * intros p Hp. apply elem_of_cons in Hp as [->|Hp]; [apply Hle; left|].
        apply elem_of_cons in Hp as [->|Hp]; [|apply Hle; by right].
        apply (nleb_trans T HO _ a x); [apply Hle; left|exact E].
    + assert (Hxa : nleb x a = true).
      { destruct (nleb_total T HO a x Ha Hx) as [Hc|Hc]; [congruence|exact Hc]. }
      destruct (IH x Hx) as [Hin Hle]. split.
      * by right.
      * intros p Hp. apply elem_of_cons in Hp as [->|Hp]; [|by apply Hle].
        apply (nleb_trans T HO _ x a); [apply Hle; left|exact Hxa].
Qed.

Lemma fold_maximum_ordered (l : list T) (a : T) :
  isnan a = false -> Forall (fun x => isnan x = false) l ->
  fold_left np_maximum l a ∈ a :: l /\
  forall p, p ∈ a :: l -> nleb p (fold_left np_maximum l a) = true.
Proof.
  intros Ha Hl. revert a Ha. induction Hl as [|x l Hx Hl IH]; intros a Ha; simpl.
  - split; [left|]. intros p Hp. apply list_elem_of_singleton in Hp as ->.
    destruct (nleb_total T HO a a Ha Ha); assumption.
  - unfold np_maximum at 2 4. rewrite Ha, orb_false_r.
    destruct (nleb x a) eqn:E.
    + destruct (IH a Ha) as [Hin Hle]. split.
      * apply elem_of_cons in Hin as [->|Hin]; [left|by do 2 right].
      * intros p Hp. apply elem_of_cons in Hp as [->|Hp]; [apply Hle; left|].
        apply elem_of_cons in Hp as [->|Hp]; [|apply Hle; by right].
        apply (nleb_trans T HO x a _); [exact E|apply Hle; left].
    + assert (Hax : nleb a x = true).
      { destruct (nleb_total T HO x a Hx Ha) as [Hc|Hc]; [congruence|exact Hc]. }
      destruct (IH x Hx) as [Hin Hle]. split.
      * by right.
      * intros p Hp. apply elem_of_cons in Hp as [->|Hp]; [|by apply Hle].
        apply (nleb_trans T HO a x _); [exact Hax|apply Hle; left].
Qed.

Lemma np_min_ordered (l : list T) (lo : T) :
  Forall (fun x => isnan x = false) l -> np_min l = Ok lo ->
  lo ∈ l /\ forall p, p ∈ l -> nleb lo p = true.
Proof.
  destruct l as [|a l]; simpl; [discriminate|]. intros Hl [= <-].
  apply Forall_cons in Hl as [Ha Hl]. by apply fold_minimum_ordered.
Qed.

Lemma np_max_ordered (l : list T) (hi : T) :
  Forall (fun x => isnan x = false) l -> np_max l = Ok hi ->
  hi ∈ l /\ forall p, p ∈ l -> nleb p hi = true.
Proof.
  destruct l as [|a l]; simpl; [discriminate|]. intros Hl [= <-].
  apply Forall_cons in Hl as [Ha Hl]. by apply fold_maximum_ordered.
Qed.

(** With absent bounds and a cube of numbers, the animation carries the least
    and the greatest value of the whole cube. *)
Lemma make_animation_ordered_bounds (data_array : list (frame (T:=T)))
    (start_frame : Z) (end_frame : option Z) (delay : Z) (ani : animation) :
  Forall (fun p => isnan p = false) (pixels data_array) ->
  make_animation data_array start_frame end_frame None None delay = Ok ani ->
  ani_vmin ani ∈ pixels data_array /\ ani_vmax ani ∈ pixels data_array /\
  forall p, p ∈ pixels data_array ->
    nleb (ani_vmin ani) p = true /\ nleb p (ani_vmax ani) = true.
Proof.
  intros Hnum Hb. apply make_animation_absent_bounds in Hb as [Hlo Hhi].
  apply (np_min_ordered _ _ Hnum) in Hlo as [Hlin Hlle].
  apply (np_max_ordered _ _ Hnum) in Hhi as [Hhin Hhle].
  split; [exact Hlin|]. split; [exact Hhin|]. intros p Hp. split; auto.
Qed.

End MinMaxOrdered.

Lemma pixels_exact (cube : list (list (list Q))) :
  pixels (map (map (map Fin)) cube) = map Fin (pixels cube).
Proof. unfold pixels. by rewrite !concat_map. Qed.

(** C9: when [vmin] and [vmax] are not supplied, the animation is built with
    the least and the greatest value over all the frames of the cube, and
    every frame it draws is drawn with those two bounds.  This holds for
    cubes of exact numbers, and for binary64 cubes without NaN. *)
Theorem make_animation_global_bounds :
  (forall (cube : list (list (list Q))) (start_frame : Z) (end_frame : option Z)
          (delay : Z) (ani : animation),
     make_animation (map (map (map Fin)) cube) start_frame end_frame None None delay
     = Ok ani ->
     exists lo hi : Q,
       ani_vmin ani = Fin lo /\ ani_vmax ani = Fin hi /\
       lo ∈ pixels cube /\ hi ∈ pixels cube /\
       (forall p, p ∈ pixels cube -> (lo <= p)%Q /\ (p <= hi)%Q) /\
       (forall i r, rendered_frames ani !! i = Some (Ok r) ->
          r_vmin r = Fin lo /\ r_vmax r = Fin hi)) /\
  (forall (data_array : list (list (list float))) (start_frame : Z)
          (end_frame : option Z) (delay : Z) (ani : animation),
     Forall (fun p => PrimFloat.is_nan p = false) (pixels data_array) ->
     make_animation data_array start_frame end_frame None None delay = Ok ani ->
     ani_vmin ani ∈ pixels data_array /\ ani_vmax ani ∈ pixels data_array /\
     (forall p, p ∈ pixels data_array ->
        (ani_vmin ani <=? p)%float = true /\ (p <=? ani_vmax ani)%float = true) /\
     (forall i r, rendered_frames ani !! i = Some (Ok r) ->
        r_vmin r = ani_vmin ani /\ r_vmax r = ani_vmax ani)).
Proof.
  split.
  - intros cube start_frame end_frame delay ani Hb.
    assert (Hnum : Forall (fun p => isnan p = false)
                     (pixels (map (map (map Fin)) cube))).
    { rewrite pixels_exact. apply Forall_fmap, Forall_forall.
      intros p _. apply exact_isnan_Fin. }
    destruct (make_animation_ordered_bounds exact_ordered _ _ _ _ _ Hnum Hb)
      as (Hlin & Hhin & Hall).
    rewrite pixels_exact in Hlin, Hhin, Hall.
    apply list_elem_of_fmap in Hlin as (lo & Hlo & Hlin).
    apply list_elem_of_fmap in Hhin as (hi & Hhi & Hhin).
    exists lo, hi. split; [exact Hlo|]. split; [exact Hhi|].
    split; [exact Hlin|]. split; [exact Hhin|]. split.
    + intros p Hp. destruct (Hall (Fin p)) as [H1 H2].
      { apply list_elem_of_fmap. eauto. }
      rewrite Hlo in H1. rewrite Hhi in H2.
      split; by apply exact_leb.
    + intros i r Hr. apply rendered_bounds in Hr as [-> ->]. by split.
  - intros data_array start_frame end_frame delay ani Hnum Hb.
    destruct (make_animation_ordered_bounds binary64_ordered _ _ _ _ _ Hnum Hb)
      as (Hlin & Hhin & Hall).
    split; [exact Hlin|]. split; [exact Hhin|]. split; [exact Hall|].
    intros i r Hr. by apply rendered_bounds in Hr.
Qed.

Lemma make_animation_global_bounds_witness :
  make_animation (map (map (map Fin)) cube3_exact) 1 None None None 50
  = Ok (Animation (map (map (map Fin)) cube3_exact) 1 2 (Fin 0%Q) (Fin 5%Q) 50) /\
  exists lo hi : Q,
    Fin 0%Q = Fin lo /\ Fin 5%Q = Fin hi /\
    lo ∈ pixels cube3_exact /\ hi ∈ pixels cube3_exact /\
    (forall p, p ∈ pixels cube3_exact -> (lo <= p)%Q /\ (p <= hi)%Q) /\
    (forall i r,
       rendered_frames
         (Animation (map (map (map Fin)) cube3_exact) 1 2 (Fin 0%Q) (Fin 5%Q) 50)
         !! i = Some (Ok r) ->
       r_vmin r = Fin lo /\ r_vmax r = Fin hi).
Proof.
  split; [reflexivity|].
  exact (proj1 make_animation_global_bounds cube3_exact 1%Z None 50%Z
           (Animation (map (map (map Fin)) cube3_exact) 1 2 (Fin 0%Q) (Fin 5%Q) 50)
           eq_refl).
Defined.

(** C10: the optional arguments are tested by truthiness: an explicit [vmin]
    or [vmax] that equals zero, and an explicit [end_frame] of 0, give the same
    animation as leaving the argument out; so a zero bound is replaced by
    [np.min] or [np.max] of the data and [end_frame=0] by the last index. *)
Theorem make_animation_zero_is_absent {T : Type} `{Number T}
    (data_array : list (frame (T:=T))) (start_frame : Z) (end_frame : option Z)
    (vmin vmax : option T) (delay : Z) (z : T) :
  neqb z nzero = true ->
  make_animation data_array start_frame end_frame (Some z) vmax delay
  = make_animation data_array start_frame end_frame None vmax delay /\
  make_animation data_array start_frame end_frame vmin (Some z) delay
  = make_animation data_array start_frame end_frame vmin None delay /\
  make_animation data_array start_frame (Some 0%Z) vmin vmax delay
  = make_animation data_array start_frame None vmin vmax delay /\
  forall ani,
    make_animation data_array start_frame (Some 0%Z) (Some z) (Some z) delay = Ok ani ->
    np_min (pixels data_array) = Ok (ani_vmin ani) /\
    np_max (pixels data_array) = Ok (ani_vmax ani) /\
    ani_frames ani = (Z.of_nat (length data_array) - 1 - start_frame + 1)%Z.
Proof.
  intros Hz.
  assert (Hfalsy : forall d, unless_truthy (Some z) d = d).
  { intros d. unfold unless_truthy, truthy. by rewrite Hz. }
  unfold make_animation. rewrite !Hfalsy.
  repeat split; try reflexivity.
  - destruct (np_min (pixels data_array)) as [lo|]; [|discriminate].
    destruct (np_max (pixels data_array)) as [hi|]; [|discriminate].
    cbn in H0. destruct (py_index data_array start_frame); [|discriminate].
    by injection H0 as <-.
  - destruct (np_min (pixels data_array)) as [lo|]; [|discriminate].
    destruct (np_max (pixels data_array)) as [hi|]; [|discriminate].
    cbn in H0. destruct (py_index data_array start_frame); [|discriminate].
    by injection H0 as <-.
  - destruct (np_min (pixels data_array)) as [lo|]; [|discriminate].
    destruct (np_max (pixels data_array)) as [hi|]; [|discriminate].
    cbn in H0. destruct (py_index data_array start_frame); [|discriminate].
    by injection H0 as <-.
Qed.

Lemma make_animation_zero_is_absent_witness :
  neqb 0%float nzero = true /\
  make_animation cube3 0 None (Some 0%float) None 50 = make_animation_defaults cube3 /\
  make_animation cube3 0 None None (Some 0%float) 50 = make_animation_defaults cube3 /\
  make_animation cube3 0 (Some 0%Z) None None 50 = make_animation_defaults cube3 /\
  make_animation_defaults cube3 = Ok (Animation cube3 0 3 0%float 5%float 50).
Proof.
  assert (Hz : neqb 0%float nzero = true) by reflexivity.
  split; [exact Hz|].
  destruct (make_animation_zero_is_absent cube3 0 None None None 50 0%float Hz)
    as (H1 & H2 & H3 & _).
  unfold make_animation_defaults. repeat split; assumption || reflexivity.
Defined.

(** * Further properties *)

(** ** Phase folding, in exact arithmetic and at a zero period *)

Section ExactFoldMore.
Local Open Scope Q_scope.

Lemma Qeq_bool_nonzero (y : Q) : ~ y == 0 -> Qeq_bool y 0 = false.
Proof.
  intros Hy. destruct (Qeq_bool y 0) eqn:E; [|reflexivity].
  apply Qeq_bool_eq in E. contradiction.
Qed.

Lemma fold1_exact_nonzero (t0 P t : Q) :
  ~ P == 0 ->
  fold1 (Fin t0) (Fin P) (Fin t)
  = Fin (Exact.Qpymod (t - t0 + (1 # 2) * P) P - (1 # 2) * P).
Proof.
  intros HP. unfold fold1. cbn. rewrite (Qeq_bool_nonzero P HP). reflexivity.
Qed.

Lemma Qfloor_add_Z (q : Q) (k : Z) : Qfloor (q + inject_Z k) = (Qfloor q + k)%Z.
Proof.
  apply Qfloor_unique.
  - rewrite inject_Z_plus. pose proof (Qfloor_le q). lra.
  - rewrite !inject_Z_plus. pose proof (Qlt_floor q) as H.
    rewrite inject_Z_plus in H. lra.
Qed.

Lemma Qpymod_range_neg (x y : Q) : y < 0 -> y < Exact.Qpymod x y <= 0.
Proof.
  intros Hy. unfold Exact.Qpymod.
  pose proof (Qfloor_le (x / y)) as Hlo.
  pose proof (Qlt_floor (x / y)) as Hhi.
  rewrite inject_Z_plus in Hhi. change (inject_Z 1) with 1 in Hhi.
  set (n := inject_Z (Qfloor (x / y))) in *.
  assert (Hxy : x == y * (x / y)) by (field; lra).
  assert (Hy' : 0 < - y) by lra.
  split.
  - assert ((- y) * (x / y) < (- y) * (n + 1)) by (apply Qmult_lt_l; assumption). lra.
  - assert ((- y) * n <= (- y) * (x / y)) by (apply Qmult_le_l; assumption). lra.
Qed.

End ExactFoldMore.

(** X1: in exact arithmetic, for every period other than zero, the folded
    time differs from the time since the epoch, [t - t0], by a whole number of
    periods. *)
Theorem fold1_exact_whole_periods (t0 P t : Q) :
  ~ (P == 0)%Q ->
  exists (r : Q) (n : Z),
    fold1 (Fin t0) (Fin P) (Fin t) = Fin r /\
    (r == t - t0 - inject_Z n * P)%Q.
Proof.
  intros HP. rewrite (fold1_exact_nonzero t0 P t HP).
  eexists _, (Qfloor ((t - t0 + (1 # 2) * P) / P)).
  split; [reflexivity|]. unfold Exact.Qpymod. ring.
Qed.

Lemma fold1_exact_whole_periods_witness :
  ~ (3 == 0)%Q /\
  exists (r : Q) (n : Z),
    fold1 (Fin (1 # 4)) (Fin 3) (Fin 10) = Fin r /\
    (r == 10 - (1 # 4) - inject_Z n * 3)%Q.
Proof.
  split; [discriminate|].
  apply (fold1_exact_whole_periods (1 # 4) 3 10). discriminate.
Defined.

(** X2: in exact arithmetic, a time within half a period of the epoch,
    [-0.5P <= t - t0 < 0.5P], is folded to [t - t0] itself. *)
Theorem fold1_exact_near_epoch (t0 P t : Q) :
  (0 < P)%Q ->
  (- ((1 # 2) * P) <= t - t0)%Q -> (t - t0 < (1 # 2) * P)%Q ->
  exists r : Q, fold1 (Fin t0) (Fin P) (Fin t) = Fin r /\ (r == t - t0)%Q.
Proof.
  intros HP Hlo Hhi. rewrite (fold1_exact t0 P t HP).
  eexists. split; [reflexivity|]. unfold Exact.Qpymod.
  assert (H0 : Qfloor ((t - t0 + (1 # 2) * P) / P) = 0%Z).
  { apply Qfloor_unique.
    - change (inject_Z 0) with 0%Q. apply Qle_shift_div_l; [exact HP|]. lra.
    - change (inject_Z (0 + 1)) with 1%Q. apply Qlt_shift_div_r; [exact HP|]. lra. }
  rewrite H0. change (inject_Z 0) with 0%Q. ring.
Qed.

Lemma fold1_exact_near_epoch_witness :
  (0 < 3)%Q /\ (- ((1 # 2) * 3) <= 1 - (1 # 4))%Q /\ (1 - (1 # 4) < (1 # 2) * 3)%Q /\
  exists r : Q, fold1 (Fin (1 # 4)) (Fin 3) (Fin 1) = Fin r /\ (r == 1 - (1 # 4))%Q.
Proof.
  split; [reflexivity|]. split; [discriminate|]. split; [reflexivity|].
  apply (fold1_exact_near_epoch (1 # 4) 3 1); [reflexivity|discriminate|reflexivity].
Defined.

(** X3: in exact arithmetic, for every period other than zero and every
    integer [k], moving the time by [k] periods, or the epoch by [k] periods,
    does not change the folded time. *)
Theorem fold1_exact_shift_invariant (t0 P t : Q) (k : Z) :
  ~ (P == 0)%Q ->
  exists r r1 r2 : Q,
    fold1 (Fin t0) (Fin P) (Fin t) = Fin r /\
    fold1 (Fin t0) (Fin P) (nadd (Fin t) (nmul (of_int k) (Fin P))) = Fin r1 /\
    fold1 (nadd (Fin t0) (nmul (of_int k) (Fin P))) (Fin P) (Fin t) = Fin r2 /\
    (r1 == r)%Q /\ (r2 == r)%Q.
Proof.
  intros HP.
  change (nadd (Fin t) (nmul (of_int k) (Fin P))) with (Fin (t + inject_Z k * P)).
  change (nadd (Fin t0) (nmul (of_int k) (Fin P))) with (Fin (t0 + inject_Z k * P)).
  rewrite !fold1_exact_nonzero by assumption.
  eexists _, _, _. split; [reflexivity|]. split; [reflexivity|].
  split; [reflexivity|]. unfold Exact.Qpymod.
  assert (H1 : Qfloor ((t + inject_Z k * P - t0 + (1 # 2) * P) / P)
               = (Qfloor ((t - t0 + (1 # 2) * P) / P) + k)%Z).
  { rewrite <- Qfloor_add_Z. apply Qfloor_comp. field. exact HP. }
  assert (H2 : Qfloor ((t - (t0 + inject_Z k * P) + (1 # 2) * P) / P)
               = (Qfloor ((t - t0 + (1 # 2) * P) / P) + - k)%Z).
  { rewrite <- Qfloor_add_Z. apply Qfloor_comp. rewrite inject_Z_opp. field. exact HP. }
  rewrite H1, H2, !inject_Z_plus, inject_Z_opp. split; ring.
Qed.

Lemma fold1_exact_shift_invariant_witness :
  ~ (3 == 0)%Q /\
  exists r r1 r2 : Q,
    fold1 (Fin (1 # 4)) (Fin 3) (Fin 10) = Fin r /\
    fold1 (Fin (1 # 4)) (Fin 3) (nadd (Fin 10) (nmul (of_int (-7)) (Fin 3))) = Fin r1 /\
    fold1 (nadd (Fin (1 # 4)) (nmul (of_int (-7)) (Fin 3))) (Fin 3) (Fin 10) = Fin r2 /\
    (r1 == r)%Q /\ (r2 == r)%Q.
Proof.
  split; [discriminate|].
  apply (fold1_exact_shift_invariant (1 # 4) 3 10 (-7)). discriminate.
Defined.

(** X4: in exact arithmetic a negative period folds into the interval closed
    at the other end: the folded time [r] satisfies [0.5P < r <= -0.5P]. *)
Theorem fold1_exact_negative_period (t0 P t : Q) :
  (P < 0)%Q ->
  exists r : Q,
    fold1 (Fin t0) (Fin P) (Fin t) = Fin r /\
    ((1 # 2) * P < r)%Q /\ (r <= - ((1 # 2) * P))%Q.
Proof.
  intros HP. rewrite (fold1_exact_nonzero t0 P t) by lra.
  eexists. split; [reflexivity|].
  pose proof (Qpymod_range_neg (t - t0 + (1 # 2) * P) P HP) as [Hlo Hhi].
  split; lra.
Qed.

Lemma fold1_exact_negative_period_witness :
  (-3 < 0)%Q /\
  exists r : Q,
    fold1 (Fin 0) (Fin (-3)) (Fin (3 # 2)) = Fin r /\
    ((1 # 2) * -3 < r)%Q /\ (r <= - ((1 # 2) * -3))%Q.
Proof.
  split; [reflexivity|].
  apply (fold1_exact_negative_period 0 (-3) (3 # 2)). reflexivity.
Defined.

(** X5: a zero period raises nothing: in binary64 every folded time is NaN,
    whatever the times and the epoch, and the exact instance has no number
    to give either. *)
Theorem x_fold_zero_period :
  (forall (x : list float) (t0 : float),
     x_fold x t0 0%float = map (fun _ => nan) x) /\
  (forall (x : list Q) (t0 : Q),
     x_fold (map Fin x) (Fin t0) (Fin 0) = map (fun _ => Nan) x).
Proof.
  split.
  - intros x t0. unfold x_fold. apply map_ext. intros t.
    change (fold1 t0 0%float t)
      with (Binary64.remainder (t - t0 + 0.5 * 0) 0 - 0.5 * 0)%float.
    change (0.5 * 0)%float with 0%float.
    set (s := (t - t0 + 0)%float).
    assert (Hm : Binary64.remainder s 0 = nan).
    { unfold Binary64.remainder, Binary64.fmod.
      change (Prim2SF 0) with (S754_zero false).
      change (PrimFloat.eqb 0 PrimFloat.zero) with true. cbv iota.
      destruct (Prim2SF s) as [[]|[]| |[] m e]; reflexivity. }
    rewrite Hm. reflexivity.
  - intros x t0. unfold x_fold. rewrite map_map. apply map_ext. intros t.
    reflexivity.
Qed.

(** ** Nearest-time index lookup: exact hits and NaN *)

(** X6: in exact arithmetic, when the query is itself one of the timestamps,
    [find_index] returns the index of its first occurrence. *)
Theorem find_index_exact_hit (TIME : list Q) (btjd : Q) (k : nat) (tk : Q) :
  TIME !! k = Some tk -> (tk == btjd)%Q ->
  exists i ti,
    find_index (map Fin TIME) (Fin btjd) = Ok i /\ (i <= k)%nat /\
    TIME !! i = Some ti /\ (ti == btjd)%Q /\
    forall j tj, (j < i)%nat -> TIME !! j = Some tj -> ~ (tj == btjd)%Q.
Proof.
  intros Hk Heq.
  destruct (find_index_ordered exact_ordered (map Fin TIME) (Fin btjd))
    as (i & x & Hi & Hx & Hmin).
  { destruct TIME; [discriminate|done]. }
  { apply Forall_fmap, Forall_forall. intros t _. apply exact_isnan_Fin. }
  rewrite list_lookup_fmap in Hx.
  destruct (TIME !! i) as [ti|] eqn:Hti; [|discriminate].
  assert (x = Fin ti) as -> by (symmetry; exact (Some_inj _ _ Hx)).
  assert (Hdist : forall j tj, TIME !! j = Some tj ->
            (Qabs (ti - btjd) <= Qabs (tj - btjd))%Q /\
            ((j < i)%nat -> (Qabs (ti - btjd) < Qabs (tj - btjd))%Q)).
  { intros j tj Hj.
    destruct (Hmin j (Fin tj)) as [Hle Hlt]; [by rewrite list_lookup_fmap, Hj|].
    split; [by apply exact_leb in Hle|].
    intros Hji. apply exact_ltb. by apply Hlt. }
  assert (Hzero : (Qabs (tk - btjd) == 0)%Q).
  { assert (tk - btjd == 0)%Q as -> by lra. reflexivity. }
  destruct (Hdist k tk Hk) as [Hle Hlt].
  pose proof (Qabs_nonneg (ti - btjd)) as Hnn.
  exists i, ti. split; [exact Hi|]. split.
  { destruct (le_lt_dec i k) as [Hik|Hki]; [exact Hik|].
    specialize (Hlt Hki). lra. }
  split; [exact Hti|]. split.
  { assert (Hti0 : (Qabs (ti - btjd) <= 0)%Q) by lra.
    apply Qabs_Qle_condition in Hti0 as [H1 H2]. lra. }
  intros j tj Hji Hj Htj.
  destruct (Hdist j tj Hj) as [_ Hfar]. specialize (Hfar Hji).
  assert (Qabs (tj - btjd) == 0)%Q.
  { assert (tj - btjd == 0)%Q as -> by lra. reflexivity. }
  lra.
Qed.

Lemma find_index_exact_hit_witness :
  [0; 5; 2; 5; 10]%Q !! 3%nat = Some 5%Q /\ (5 == 5)%Q /\
  exists i ti,
    find_index (map Fin [0; 5; 2; 5; 10]%Q) (Fin 5%Q) = Ok i /\ (i <= 3)%nat /\
    [0; 5; 2; 5; 10]%Q !! i = Some ti /\ (ti == 5)%Q /\
    forall j tj, (j < i)%nat -> [0; 5; 2; 5; 10]%Q !! j = Some tj -> ~ (tj == 5)%Q.
Proof.
  split; [reflexivity|]. split; [reflexivity|].
  apply (find_index_exact_hit [0; 5; 2; 5; 10]%Q 5%Q 3 5%Q); reflexivity.
Defined.

Section ArgminNan.
Context {T : Type} `{Number T}.
(** No comparison with a NaN holds. *)
Hypothesis nan_unordered : forall m x : T, isnan x = true -> nleb m x = false.

Lemma argmin_from_first_nan (pre post : list T) (x m : T) (mi i : nat) :
  Forall (fun y => isnan y = false) pre -> isnan x = true ->
  argmin_from m mi i (pre ++ x :: post) = (i + length pre)%nat.
Proof.
  intros Hpre Hx. revert m mi i.
  induction Hpre as [|d pre Hd Hpre IH]; intros m mi i; simpl.
  - rewrite (nan_unordered m x Hx), Hx. simpl. lia.
  - rewrite Hd. destruct (negb (nleb m d)); rewrite IH; lia.
Qed.

Lemma np_argmin_first_nan (pre post : list T) (x : T) :
  Forall (fun y => isnan y = false) pre -> isnan x = true ->
  np_argmin (pre ++ x :: post) = Ok (length pre).
Proof.
  intros Hpre Hx. destruct Hpre as [|d pre Hd Hpre]; simpl.
  - by rewrite Hx.
  - rewrite Hd. by rewrite (argmin_from_first_nan pre post x d 0 1 Hpre Hx).
Qed.

End ArgminNan.

Lemma binary64_nan_unordered (m x : float) :
  isnan x = true -> nleb m x = false.
Proof.
  unfold isnan. cbn. rewrite negb_true_iff, FloatAxioms.eqb_spec, FloatAxioms.leb_spec.
  intros Hx.
  assert (Hnan : Prim2SF x = S754_nan).
  { destruct (Prim2SF x) as [s|s| |s mx ex] eqn:E; [| |reflexivity|];
      exfalso; apply not_true_iff_false in Hx; apply Hx, SFeqb_refl_key;
      destruct s; simpl; eauto. }
  rewrite Hnan. unfold SFleb, SFcompare.
  destruct (Prim2SF m) as [[]|[]| |[] mm em]; reflexivity.
Qed.

(** X7: in binary64, when some difference [|t - btjd|] is NaN (a NaN timestamp,
    or a NaN query), [find_index] returns the index of the first such entry,
    however near the other timestamps are. *)
Theorem find_index_first_nan (TIME : list float) (btjd : float) (k : nat) (tk : float) :
  TIME !! k = Some tk ->
  PrimFloat.is_nan (PrimFloat.abs (tk - btjd)) = true ->
  (forall j tj, (j < k)%nat -> TIME !! j = Some tj ->
     PrimFloat.is_nan (PrimFloat.abs (tj - btjd)) = false) ->
  find_index TIME btjd = Ok k.
Proof.
  intros Hk Hnan Hbefore.
  pose proof (take_drop_middle TIME k tk Hk) as Hsplit.
  unfold find_index. rewrite <- Hsplit, map_app. cbn [map].
  pose proof (lookup_lt_Some _ _ _ Hk) as Hlt.
  rewrite (np_argmin_first_nan binary64_nan_unordered).
  - by rewrite length_map, length_take_le by lia.
  - apply Forall_fmap, Forall_forall. intros tj Hj.
    apply list_elem_of_lookup in Hj as [j Hj].
    pose proof (lookup_lt_Some _ _ _ Hj) as Hjk. rewrite length_take in Hjk.
    rewrite lookup_take_lt in Hj by lia.
    exact (Hbefore j tj ltac:(lia) Hj).
  - exact Hnan.
Qed.

Lemma find_index_first_nan_witness :
  [0; 1; nan; 5; nan]%float !! 2%nat = Some nan /\
  PrimFloat.is_nan (PrimFloat.abs (nan - 5)) = true /\
  find_index [0; 1; nan; 5; nan]%float 5%float = Ok 2%nat.
Proof.
  split; [reflexivity|]. split; [reflexivity|].
  apply (find_index_first_nan [0; 1; nan; 5; nan]%float 5%float 2 nan);
    [reflexivity|reflexivity|].
  intros [|[|j]] tj Hj Htj; [| |lia]; injection Htj as <-; reflexivity.
Defined.

(** ** JSON records to a table: text handling *)

Lemma starts_with_split (p s : string) :
  Str.starts_with p s = true -> s = p +:+ Str.drop (String.length p) s.
Proof.
  revert s. induction p as [|a p IH]; intros s Hs; simpl in *; [by destruct s|].
  destruct s as [|b s]; [discriminate|].
  apply andb_true_iff in Hs as [Hab Hs]. apply Ascii.eqb_eq in Hab as ->.
  change (String b s = String b (p +:+ Str.drop (String.length p) s)).
  f_equal. by apply IH.
Qed.

Lemma span_digits_split (s d r : string) :
  Str.span_digits s = (d, r) -> s = d +:+ r /\ Str.all_digits d = true.
Proof.
  revert d r. induction s as [|c s IH]; simpl; intros d r Hsp.
  - by injection Hsp as <- <-.
  - destruct (Str.is_digit c) eqn:Hc.
    + destruct (Str.span_digits s) as [d' r'] eqn:E. injection Hsp as <- <-.
      destruct (IH d' r' eq_refl) as [-> Hd]. simpl. by rewrite Hc, Hd.
    + by injection Hsp as <- <-.
Qed.

Lemma rx_match_here_sound (s g : string) :
  rx_match_here s = Some g ->
  g <> "" /\ Str.all_digits g = true /\
  exists post, s = "varchar(" +:+ g +:+ ")" +:+ post.
Proof.
  unfold rx_match_here. destruct (Str.starts_with "varchar(" s) eqn:Hp; [|discriminate].
  destruct (Str.span_digits (Str.drop 8 s)) as [d r] eqn:Hsp.
  destruct (negb (String.eqb d "") && Str.starts_with ")" r) eqn:Hc; [|discriminate].
  intros [= <-]. apply andb_true_iff in Hc as [Hne Hr].
  apply span_digits_split in Hsp as [Hs Hd].
  apply starts_with_split in Hp. apply starts_with_split in Hr.
  split; [|split; [exact Hd|]].
  - intros ->. discriminate.
  - exists (Str.drop 1 r).
    change (String.length "varchar(") with 8%nat in Hp.
    rewrite Hp, Hs. do 2 f_equal. exact Hr.
Qed.

Lemma rx_match_here_complete (N post : string) :
  N <> "" -> Str.all_digits N = true ->
  rx_match_here ("varchar(" +:+ N +:+ ")" +:+ post) = Some N.
Proof.
  intros Hne Hd. unfold rx_match_here.
  change (Str.starts_with "varchar(" ("varchar(" +:+ N +:+ ")" +:+ post)) with true.
  change (Str.drop 8 ("varchar(" +:+ N +:+ ")" +:+ post)) with (N +:+ String ")" post).
  cbv iota. rewrite (span_digits_closing N post Hd).
  destruct (String.eqb N "") eqn:E.
  - apply String.eqb_eq in E. contradiction.
  - reflexivity.
Qed.

Lemma rx_search_sound (s g : string) :
  rx_search s = Some g ->
  g <> "" /\ Str.all_digits g = true /\
  exists pre post, s = pre +:+ "varchar(" +:+ g +:+ ")" +:+ post.
Proof.
  revert g. induction s as [|c s IH]; intros g Hs.
  - cbn in Hs. discriminate.
  - cbn [rx_search] in Hs.
    destruct (rx_match_here (String c s)) as [d|] eqn:Hm.
    + injection Hs as <-.
      destruct (rx_match_here_sound _ _ Hm) as (Hne & Hd & post & Hpost).
      split; [exact Hne|]. split; [exact Hd|]. by exists "", post.
    + destruct (IH g Hs) as (Hne & Hd & pre & post & ->).
      split; [exact Hne|]. split; [exact Hd|]. by exists (String c pre), post.
Qed.

Lemma rx_search_complete (pre N post : string) :
  N <> "" -> Str.all_digits N = true ->
  exists g, rx_search (pre +:+ "varchar(" +:+ N +:+ ")" +:+ post) = Some g.
Proof.
  intros Hne Hd. induction pre as [|c pre IH].
  - exists N. change ("" +:+ "varchar(" +:+ N +:+ ")" +:+ post)
      with (String "v" ("archar(" +:+ N +:+ ")" +:+ post)).
    cbn [rx_search].
    change (String "v" ("archar(" +:+ N +:+ ")" +:+ post))
      with ("varchar(" +:+ N +:+ ")" +:+ post).
    by rewrite rx_match_here_complete.
  - destruct IH as [g Hg].
    change (String c pre +:+ "varchar(" +:+ N +:+ ")" +:+ post)
      with (String c (pre +:+ "varchar(" +:+ N +:+ ")" +:+ post)).
    cbn [rx_search]. destruct (rx_match_here _); eauto.
Qed.

(** X8: the pattern [varchar\((\d+)\)] is found in a declared type exactly when
    the type contains [varchar(], one or more digits and [)] in a row; the
    group returned is such a run of digits, taken where the text occurs. *)
Theorem rx_search_finds_varchar_digits (s : string) :
  (forall g, rx_search s = Some g ->
     g <> "" /\ Str.all_digits g = true /\
     exists pre post, s = pre +:+ "varchar(" +:+ g +:+ ")" +:+ post) /\
  (forall pre N post,
     N <> "" -> Str.all_digits N = true ->
     s = pre +:+ "varchar(" +:+ N +:+ ")" +:+ post ->
     exists g, rx_search s = Some g).
Proof.
  split.
  - intros g. apply rx_search_sound.
  - intros pre N post Hne Hd ->. by apply rx_search_complete.
Qed.

Lemma digit_not_letter (c : ascii) (l : ascii) :
  Str.is_digit c = true -> Str.is_digit l = false -> Ascii.eqb l c = false.
Proof.
  intros Hc Hl. destruct (Ascii.eqb l c) eqn:E; [|reflexivity].
  apply Ascii.eqb_eq in E. congruence.
Qed.

Lemma digits_hold_no_varchar (g : string) :
  Str.all_digits g = true -> Str.contains "varchar" g = false.
Proof.
  induction g as [|c g IH]; intros Hd; [reflexivity|].
  simpl in Hd. apply andb_true_iff in Hd as [Hc Hd].
  cbn [Str.contains Str.starts_with].
  rewrite (digit_not_letter c "v" Hc eq_refl). simpl. by apply IH.
Qed.

(** X9: whatever the declared type, the dtype handed to [np.array] is never
    the text [real] and never contains [varchar]: both spellings of the
    archive are always rewritten. *)
Theorem declared_dtype_is_rewritten (atype dtype : string) :
  declared_dtype atype = Ok dtype ->
  dtype <> "real" /\ Str.contains "varchar" dtype = false.
Proof.
  unfold declared_dtype. destruct (Str.contains "varchar" atype) eqn:Hc.
  - destruct (rx_search atype) as [g|] eqn:Hs; [|discriminate].
    cbn. intros [= <-].
    destruct (rx_search_sound atype g Hs) as (_ & Hd & _).
    split; [discriminate|].
    change ("U" +:+ g) with (String "U" g).
    cbn [Str.contains Str.starts_with]. simpl. by apply digits_hold_no_varchar.
  - cbn. destruct (String.eqb atype "real") eqn:E; intros [= <-].
    + split; [discriminate|reflexivity].
    + apply String.eqb_neq in E. by split.
Qed.

Lemma declared_dtype_is_rewritten_witness :
  declared_dtype "nvarchar(12)" = Ok "U12" /\
  "U12" <> "real" /\ Str.contains "varchar" "U12" = false.
Proof.
  split; [reflexivity|].
  apply (declared_dtype_is_rewritten "nvarchar(12)" "U12"). reflexivity.
Defined.




(** ** JSON records to a table: the table as a whole *)





Lemma table_get_colnames (name : string) (t : table) :
  is_Some (table_get name t) <-> name ∈ colnames t.
Proof.
  induction t as [|[n c] t IH]; simpl.
  - split; [intros [x Hx]; discriminate|intros Hx; by apply not_elem_of_nil in Hx].
  - destruct (String.eqb n name) eqn:E.
    + apply String.eqb_eq in E as ->. split; [intros _; left|eauto].
    + apply String.eqb_neq in E. rewrite IH, elem_of_cons. split; [by right|].
      intros [->|Hx]; [contradiction|exact Hx].
Qed.

Section JsonToTableMore.
Variable repr_float : float -> string.
Variable float_of_str : string -> option float.
Variable dtype_understood : string -> bool.
Variable cast_other : string -> pyval -> result cell.

Local Abbreviation np_array' :=
  (np_array repr_float float_of_str dtype_understood cast_other).
Local Abbreviation field_column' :=
  (field_column repr_float float_of_str dtype_understood cast_other).
Local Abbreviation add_field' :=
  (add_field repr_float float_of_str dtype_understood cast_other).
Local Abbreviation json_to_table_from' :=
  (json_to_table_from repr_float float_of_str dtype_understood cast_other).
Local Abbreviation json_to_table' :=
  (json_to_table repr_float float_of_str dtype_understood cast_other).
Local Abbreviation to_float' := (to_float float_of_str).



(** X12: a returned table is rectangular: every column has one cell per row
    of [data]. *)
Theorem json_to_table_rectangular (fields : list field)
    (data : list (gmap string pyval)) (t : table) (name : string) (c : column) :
  json_to_table' fields data = Ok t -> table_get name t = Some c ->
  length (col_cells c) = length data.
Proof.
  intros Ht Hget. unfold json_to_table in Ht.
  assert (Harr : np_array' (map (row_get name) data) (col_dtype c) = Ok c).
  { apply (json_to_table_from_columns _ _ _ _ _ _ _ _ Ht); [|exact Hget]. discriminate. }
  rewrite (np_array_length _ _ _ _ _ _ _ Harr). apply length_map.
Qed.

Lemma json_to_table_from_first_error (t : table) (pre post : list field) (f : field)
    (data : list (gmap string pyval)) (e : exn) :
  Forall (fun g => exists c, field_column' data g = Ok c) pre ->
  field_column' data f = Raise e ->
  json_to_table_from' t (pre ++ f :: post) data = Raise e.
Proof.
  intros Hpre Hf. revert t.
  induction Hpre as [|g pre [c Hc] _ IH]; intros t; simpl.
  - unfold add_field. by rewrite Hf.
  - unfold add_field. rewrite Hc. cbn. apply IH.
Qed.

Lemma json_to_table_from_Raise (t : table) (fields : list field)
    (data : list (gmap string pyval)) (e : exn) :
  json_to_table_from' t fields data = Raise e ->
  exists pre f post,
    fields = pre ++ f :: post /\
    Forall (fun g => exists c, field_column' data g = Ok c) pre /\
    field_column' data f = Raise e.
Proof.
  revert t. induction fields as [|f fields IH]; intros t; simpl; [discriminate|].
  unfold add_field. destruct (field_column' data f) as [c|e'] eqn:Hf; cbn.
  - intros Hb. destruct (IH _ Hb) as (pre & g & post & -> & Hpre & Hg).
    exists (f :: pre), g, post. split; [reflexivity|]. split; [|exact Hg].
    constructor; eauto.
  - intros [= <-]. exists [], f, fields. split; [reflexivity|]. by split.
Qed.

(** X13: [json_to_table] raises exactly when the column of some descriptor
    cannot be built, and the exception is that of the first such descriptor:
    the descriptors after it are not looked at. *)
Theorem json_to_table_raises_first_error (fields : list field)
    (data : list (gmap string pyval)) (e : exn) :
  json_to_table' fields data = Raise e <->
  exists pre f post,
    fields = pre ++ f :: post /\
    Forall (fun g => exists c, field_column' data g = Ok c) pre /\
    field_column' data f = Raise e.
Proof.
  unfold json_to_table. split.
  - apply json_to_table_from_Raise.
  - intros (pre & f & post & -> & Hpre & Hf).
    by apply json_to_table_from_first_error.
Qed.



(** X15: the table depends on the rows only through the values found under
    the stripped column names: keys no descriptor names are ignored, and a key
    holding [null] counts as a missing key. *)
Theorem json_to_table_reads_named_keys (fields : list field)
    (data data' : list (gmap string pyval)) :
  (forall f, f ∈ fields ->
     map (row_get (field_col f)) data = map (row_get (field_col f)) data') ->
  json_to_table' fields data = json_to_table' fields data'.
Proof.
  unfold json_to_table. generalize ([] : table).
  induction fields as [|f fields IH]; intros t Hsame; simpl; [reflexivity|].
  unfold add_field, field_column. rewrite (Hsame f) by left.
  destruct (declared_dtype (datatype f) ≫= _) as [c|e]; cbn; [|reflexivity].
  apply IH. intros g Hg. apply Hsame. by right.
Qed.

End JsonToTableMore.



Lemma json_to_table_rectangular_witness :
  json_to_table_run example_fields example_data
  = Ok [("a", Column "U3" [CStr "xy"; CStr "Non"]);
        ("b", Column "float" [CFloat 1.5%float; CFloat 2.5%float])] /\
  length [CFloat 1.5%float; CFloat 2.5%float] = length example_data.
Proof.
  split; [reflexivity|].
  exact (json_to_table_rectangular (fun _ => "") (fun _ => None) (fun _ => false)
           (fun _ _ => Raise TypeError) example_fields example_data _ "b"
           (Column "float" [CFloat 1.5%float; CFloat 2.5%float]) eq_refl eq_refl).
Defined.


Lemma json_to_table_reads_named_keys_witness :
  json_to_table_run example_fields
    [ <["a" := PyStr "xy"]> (<["c" := PyInt 7]> {["b" := PyFloat 1.5%float]});
      <["a" := PyNone]> {["b" := PyFloat 2.5%float]} ]
  = json_to_table_run example_fields example_data.
Proof.
  apply (json_to_table_reads_named_keys (fun _ => "") (fun _ => None) (fun _ => false)
           (fun _ _ => Raise TypeError)).
  intros f Hf. apply elem_of_cons in Hf as [->|Hf]; [reflexivity|].
  apply list_elem_of_singleton in Hf as ->. reflexivity.
Defined.

(** ** Frame animation: which frames are drawn, and when it raises *)

Lemma py_index_outside {A} (a : list A) (i : Z) :
  (i < - Z.of_nat (length a) \/ Z.of_nat (length a) <= i)%Z ->
  py_index a i = Raise IndexError.
Proof.
  intros Hout. unfold py_index.
  destruct (i <? 0)%Z eqn:E; [apply Z.ltb_lt in E|apply Z.ltb_ge in E].
  - assert (((0 <=? i + Z.of_nat (length a)) && (i + Z.of_nat (length a) <? Z.of_nat (length a)))%Z = false) as ->; [|reflexivity].
    apply andb_false_iff. left. apply Z.leb_gt. lia.
  - assert (((0 <=? i) && (i <? Z.of_nat (length a)))%Z = false) as ->; [|reflexivity].
    apply andb_false_iff. right. apply Z.ltb_ge. lia.
Qed.

Lemma py_index_negative {A} (a : list A) (i : Z) (x : A) :
  (i < 0)%Z -> (0 <= i + Z.of_nat (length a))%Z ->
  a !! Z.to_nat (i + Z.of_nat (length a)) = Some x ->
  py_index a i = Ok x.
Proof.
  intros Hneg Hin Hx. unfold py_index.
  rewrite (proj2 (Z.ltb_lt _ _) Hneg).
  assert (((0 <=? i + Z.of_nat (length a)) && (i + Z.of_nat (length a) <? Z.of_nat (length a)))%Z = true) as ->.
  { apply andb_true_intro. split; [apply Z.leb_le|apply Z.ltb_lt]; lia. }
  by rewrite Hx.
Qed.

Lemma py_index_Ok_range {A} (a : list A) (i : Z) (x : A) :
  py_index a i = Ok x ->
  (- Z.of_nat (length a) <= i < Z.of_nat (length a))%Z.
Proof.
  intros Hx.
  destruct (Z_lt_dec i (- Z.of_nat (length a))) as [Hlo|Hlo];
    [rewrite py_index_outside in Hx by lia; discriminate|].
  destruct (Z_le_dec (Z.of_nat (length a)) i) as [Hhi|Hhi];
    [rewrite py_index_outside in Hx by lia; discriminate|].
  lia.
Qed.

Section AnimationMore.
Context {T : Type} `{Number T}.

Lemma rendered_frames_lookup (ani : animation (T:=T)) (i : nat) :
  (i < Z.to_nat (ani_frames ani))%nat ->
  rendered_frames ani !! i = Some (animate ani (Z.of_nat i)).
Proof.
  intros Hi. unfold rendered_frames.
  by rewrite list_lookup_fmap, py_range_lookup.
Qed.

(** X16: for a range inside the cube, [0 <= start_frame <= end_frame < len]
    with [end_frame] not 0, the frames drawn are the frames of the cube from
    [start_frame] to [end_frame], in order, each titled with its own index
    and drawn with the animation's bounds. *)
Theorem make_animation_draws_range (data_array : list (frame (T:=T)))
    (start_frame e : Z) (vmin vmax : option T) (delay : Z) (ani : animation) :
  (0 <= start_frame)%Z -> (start_frame <= e)%Z ->
  (e < Z.of_nat (length data_array))%Z -> e <> 0%Z ->
  make_animation data_array start_frame (Some e) vmin vmax delay = Ok ani ->
  length (rendered_frames ani) = Z.to_nat (e - start_frame + 1) /\
  forall i, (i < Z.to_nat (e - start_frame + 1))%nat ->
    exists im,
      data_array !! (Z.to_nat start_frame + i)%nat = Some im /\
      rendered_frames ani !! i
      = Some (Ok (Rendered (Z.of_nat i + start_frame) im (ani_vmin ani) (ani_vmax ani))).
Proof.
  intros H0 Hse Hlen He Hb.
  apply make_animation_Ok in Hb as (lo & hi & first & _ & _ & _ & ->).
  assert (Hfr : unless_truthy_int (Some e) (Z.of_nat (length data_array) - 1) = e).
  { simpl. destruct (e =? 0)%Z eqn:E; [apply Z.eqb_eq in E; contradiction|reflexivity]. }
  rewrite rendered_frames_length. cbn [ani_frames ani_vmin ani_vmax]. rewrite Hfr.
  split; [reflexivity|]. intros i Hi.
  destruct (lookup_lt_is_Some_2 data_array (Z.to_nat start_frame + i)) as [im Him];
    [lia|].
  exists im. split; [exact Him|].
  rewrite rendered_frames_lookup by (cbn [ani_frames]; exact Hi).
  unfold animate. cbn [ani_data ani_start ani_vmin ani_vmax].
  replace (Z.of_nat i + start_frame)%Z with (Z.of_nat (Z.to_nat start_frame + i)) by lia.
  by rewrite (py_index_nat _ _ _ Him).
Qed.

(** X17: a call that returns an animation was given a cube with at least one
    frame and a [start_frame] that indexes it, from the front or, when
    negative, from the back; any other [start_frame] makes the call raise. *)
Theorem make_animation_needs_first_frame (data_array : list (frame (T:=T)))
    (start_frame : Z) (end_frame : option Z) (vmin vmax : option T) (delay : Z)
    (ani : animation) :
  make_animation data_array start_frame end_frame vmin vmax delay = Ok ani ->
  data_array <> [] /\
  (- Z.of_nat (length data_array) <= start_frame < Z.of_nat (length data_array))%Z.
Proof.
  intros Hb. apply make_animation_Ok in Hb as (lo & hi & first & _ & _ & Hfirst & _).
  apply py_index_Ok_range in Hfirst. split; [|exact Hfirst].
  intros ->. simpl in Hfirst. lia.
Qed.

(** X18: an [end_frame] past the end of the cube is not refused when the
    animation is built: the frames inside the cube are drawn, and drawing any
    frame past the end raises [IndexError]. *)
Theorem make_animation_end_past_cube (data_array : list (frame (T:=T)))
    (start_frame e : Z) (vmin vmax : option T) (delay : Z) (ani : animation) (i : nat) :
  (0 <= start_frame)%Z -> (Z.of_nat (length data_array) <= e)%Z ->
  make_animation data_array start_frame (Some e) vmin vmax delay = Ok ani ->
  (Z.of_nat i <= e - start_frame)%Z ->
  (Z.of_nat (length data_array) <= Z.of_nat i + start_frame)%Z ->
  rendered_frames ani !! i = Some (Raise IndexError).
Proof.
  intros H0 Hlen Hb Hi Hpast.
  apply make_animation_Ok in Hb as (lo & hi & first & _ & _ & Hfirst & ->).
  apply py_index_Ok_range in Hfirst.
  assert (Hfr : unless_truthy_int (Some e) (Z.of_nat (length data_array) - 1) = e).
  { simpl. destruct (e =? 0)%Z eqn:E; [apply Z.eqb_eq in E; lia|reflexivity]. }
  rewrite rendered_frames_lookup by (cbn [ani_frames]; try rewrite Hfr; lia).
  unfold animate. cbn [ani_data ani_start].
  rewrite py_index_outside by lia. reflexivity.
Qed.

(** X19: a negative [start_frame = -k] with the default [end_frame] is
    accepted and counts from the back: the animation has [len + k] frames,
    first the last [k] frames of the cube and then the whole cube from its
    first frame, with the titles' epoch numbers running from [-k]. *)
Theorem make_animation_negative_start (data_array : list (frame (T:=T)))
    (k : nat) (vmin vmax : option T) (delay : Z) (ani : animation) :
  (1 <= k <= length data_array)%nat ->
  make_animation data_array (- Z.of_nat k) None vmin vmax delay = Ok ani ->
  length (rendered_frames ani) = (length data_array + k)%nat /\
  (forall i, (i < k)%nat ->
     exists im,
       data_array !! (length data_array - k + i)%nat = Some im /\
       rendered_frames ani !! i
       = Some (Ok (Rendered (Z.of_nat i - Z.of_nat k) im (ani_vmin ani) (ani_vmax ani)))) /\
  (forall i, (k <= i < length data_array + k)%nat ->
     exists im,
       data_array !! (i - k)%nat = Some im /\
       rendered_frames ani !! i
       = Some (Ok (Rendered (Z.of_nat i - Z.of_nat k) im (ani_vmin ani) (ani_vmax ani)))).
Proof.
  intros Hk Hb.
  apply make_animation_Ok in Hb as (lo & hi & first & _ & _ & _ & ->).
  cbn [unless_truthy_int ani_vmin ani_vmax].
  assert (Hn : Z.to_nat (Z.of_nat (length data_array) - 1 - - Z.of_nat k + 1)
               = (length data_array + k)%nat) by lia.
  split; [rewrite rendered_frames_length; cbn [ani_frames]; exact Hn|].
  split; intros i Hi.
  - destruct (lookup_lt_is_Some_2 data_array (length data_array - k + i)) as [im Him];
      [lia|].
    exists im. split; [exact Him|].
    rewrite rendered_frames_lookup by (cbn [ani_frames]; lia).
    unfold animate. cbn [ani_data ani_start ani_vmin ani_vmax].
    replace (Z.of_nat i + - Z.of_nat k)%Z with (Z.of_nat i - Z.of_nat k)%Z by lia.
    rewrite (py_index_negative _ _ im); [reflexivity|lia|lia|].
    replace (Z.to_nat (Z.of_nat i - Z.of_nat k + Z.of_nat (length data_array)))
      with (length data_array - k + i)%nat by lia.
    exact Him.
  - destruct (lookup_lt_is_Some_2 data_array (i - k)) as [im Him]; [lia|].
    exists im. split; [exact Him|].
    rewrite rendered_frames_lookup by (cbn [ani_frames]; lia).
    unfold animate. cbn [ani_data ani_start ani_vmin ani_vmax].
    replace (Z.of_nat i + - Z.of_nat k)%Z with (Z.of_nat (i - k)) by lia.
    rewrite (py_index_nat _ _ _ Him).
    replace (Z.of_nat (i - k)) with (Z.of_nat i - Z.of_nat k)%Z by lia.
    reflexivity.
Qed.

(** X20: on a cube without pixels (no frame, or frames of size zero) the
    call raises: [ValueError], from [np.min] or [np.max], unless both bounds
    are passed and truthy; with both bounds passed, a cube without frames
    raises [IndexError] at the initial plot. *)
Theorem make_animation_no_pixels (data_array : list (frame (T:=T)))
    (start_frame : Z) (end_frame : option Z) (vmin vmax : option T) (delay : Z) :
  pixels data_array = [] ->
  (given vmin && given vmax = false ->
   make_animation data_array start_frame end_frame vmin vmax delay = Raise ValueError) /\
  (given vmin && given vmax = true -> data_array = [] ->
   make_animation data_array start_frame end_frame vmin vmax delay = Raise IndexError).
Proof.
  intros Hpx. unfold make_animation, given. rewrite Hpx. cbn [np_min np_max].
  split.
  - intros Hg. destruct vmin as [a|]; cbn [unless_truthy] in *; [|reflexivity].
    destruct (truthy a); [|reflexivity].
    destruct vmax as [b|]; cbn [unless_truthy] in *; [|reflexivity].
    destruct (truthy b); [discriminate|reflexivity].
  - intros Hg ->. destruct vmin as [a|]; [|discriminate].
    destruct vmax as [b|]; [|rewrite andb_false_r in Hg; discriminate].
    cbn [unless_truthy]. apply andb_true_iff in Hg as [-> ->].
    cbn [mbind result_bind].
    rewrite py_index_outside by (simpl; lia). reflexivity.
Qed.


End AnimationMore.

Lemma make_animation_draws_range_witness :
  make_animation cube3 1 (Some 2%Z) None None 50
  = Ok (Animation cube3 1 2 0%float 5%float 50) /\
  length (rendered_frames (Animation cube3 1 2 0%float 5%float 50)) = 2%nat /\
  forall i, (i < 2)%nat ->
    exists im,
      cube3 !! (1 + i)%nat = Some im /\
      rendered_frames (Animation cube3 1 2 0%float 5%float 50) !! i
      = Some (Ok (Rendered (Z.of_nat i + 1) im 0%float 5%float)).
Proof.
  split; [reflexivity|].
  exact (make_animation_draws_range cube3 1%Z 2%Z None None 50%Z
           (Animation cube3 1 2 0%float 5%float 50)
           ltac:(lia) ltac:(lia) ltac:(simpl; lia) ltac:(lia) eq_refl).
Defined.

Lemma make_animation_needs_first_frame_witness :
  make_animation cube3 (-3) None None None 50
  = Ok (Animation cube3 (-3) 6 0%float 5%float 50) /\
  cube3 <> [] /\ (- Z.of_nat (length cube3) <= -3 < Z.of_nat (length cube3))%Z.
Proof.
  split; [reflexivity|].
  exact (make_animation_needs_first_frame cube3 (-3)%Z None None None 50%Z
           (Animation cube3 (-3) 6 0%float 5%float 50) eq_refl).
Defined.

Lemma make_animation_end_past_cube_witness :
  make_animation cube3 1 (Some 4%Z) None None 50
  = Ok (Animation cube3 1 4 0%float 5%float 50) /\
  rendered_frames (Animation cube3 1 4 0%float 5%float 50) !! 2%nat
  = Some (Raise IndexError).
Proof.
  split; [reflexivity|].
  exact (make_animation_end_past_cube cube3 1%Z 4%Z None None 50%Z
           (Animation cube3 1 4 0%float 5%float 50) 2%nat
           ltac:(lia) ltac:(simpl; lia) eq_refl ltac:(lia) ltac:(simpl; lia)).
Defined.

Lemma make_animation_negative_start_witness :
  make_animation cube3 (-2) None None None 50
  = Ok (Animation cube3 (-2) 5 0%float 5%float 50) /\
  length (rendered_frames (Animation cube3 (-2) 5 0%float 5%float 50)) = 5%nat /\
  rendered_frames (Animation cube3 (-2) 5 0%float 5%float 50)
  = [Ok (Rendered (-2) [[0; 5]] 0 5); Ok (Rendered (-1) [[3; 4]] 0 5);
     Ok (Rendered 0 [[1; 2]] 0 5); Ok (Rendered 1 [[0; 5]] 0 5);
     Ok (Rendered 2 [[3; 4]] 0 5)]%float.
Proof.
  split; [reflexivity|].
  split; [|reflexivity].
  exact (proj1 (make_animation_negative_start cube3 2%nat None None 50%Z
                  (Animation cube3 (-2) 5 0%float 5%float 50)
                  ltac:(simpl; lia) eq_refl)).
Defined.

Lemma make_animation_no_pixels_witness :
  pixels (T:=float) [[]; []] = [] /\
  make_animation (T:=float) [[]; []] 0 None None (Some 1%float) 50 = Raise ValueError.
Proof.
  split; [reflexivity|].
  exact (proj1 (make_animation_no_pixels (T:=float) [[]; []] 0%Z None None
                  (Some 1%float) 50%Z eq_refl) eq_refl).
Defined.

